(** * ts-shipment-tracking: request resilience and dispatch pipeline

    A shallow embedding of the middleware chain engine (src/tracker.ts), the
    retry, circuit-breaker and cache middlewares (src/middleware/*.ts), the
    tracker's batch mode and factory, and the OAuth token lifecycle of
    src/providers/base-provider.ts, together with the properties of the
    specification that concern them.

    Asynchronous code is modelled in continuation-passing style: the body of
    an [async execute(ctx, next)] is a tree of effects ([Prog]) whose nodes are
    the awaits and side effects of the source, and whose interpretation is
    given by the chain engine. *)

From stdpp Require Import base option list gmap strings pretty.
From Stdlib Require Import ZArith Lia.

Local Open Scope Z_scope.

(** ** Values that flow through the pipeline *)

(** src/types.ts: [TrackingStatus]. *)
Inductive TrackingStatus :=
| LABEL_CREATED | IN_TRANSIT | OUT_FOR_DELIVERY | DELIVERY_ATTEMPTED
| RETURNED_TO_SENDER | EXCEPTION | DELIVERED.

(** src/types.ts: [TrackingEvent]; every field is optional. *)
Record TrackingEvent := {
  status : option TrackingStatus;
  label : option string;
  location : option string;
  time : option Z
}.

(** src/types.ts: [TrackingResult = TrackingInfo & { courier, trackingNumber, raw }].
    The raw payload is kept as its JSON text. *)
Record TrackingResult := {
  events : list TrackingEvent;
  estimatedDeliveryTime : option Z;
  courier : string;
  trackingNumber : string;
  raw : string
}.

(** The [response] of an AxiosError: [status], and [data] when it is truthy
    (held as its [JSON.stringify] text). *)
Record AxiosResponse := {
  resp_status : Z;
  resp_data : option string
}.

(** Values that the code throws.  src/errors.ts declares [TrackingError],
    [ProviderError extends TrackingError] and
    [AuthenticationError extends ProviderError]; [AxiosError] comes from axios;
    [PlainError] is [new Error(message)]; [UndefinedValue] is the value
    [undefined] (what [throw lastError] throws when no error was recorded). *)
#[warnings="-register-all"] Inductive Thrown :=
| AxiosError (response : option AxiosResponse) (message : string)
| PlainError (message : string)
| TrackingError (message : string)
| ProviderError (message courier_name tracking_number : string)
                (raw_payload : option string) (cause : option Thrown)
| AuthenticationError (message courier_name tracking_number : string)
                      (cause : option Thrown)
| UndefinedValue.

(** [err instanceof AxiosError]. *)
Definition instanceof_AxiosError (err : Thrown) : bool :=
  match err with AxiosError _ _ => true | _ => false end.

(** [err instanceof AuthenticationError]. *)
Definition instanceof_AuthenticationError (err : Thrown) : bool :=
  match err with AuthenticationError _ _ _ _ => true | _ => false end.

(** [err instanceof ProviderError] (true of the subclass as well). *)
Definition instanceof_ProviderError (err : Thrown) : bool :=
  match err with
  | ProviderError _ _ _ _ _ | AuthenticationError _ _ _ _ => true
  | _ => false
  end.

(** [err instanceof TrackingError]. *)
Definition instanceof_TrackingError (err : Thrown) : bool :=
  match err with
  | TrackingError _ | ProviderError _ _ _ _ _ | AuthenticationError _ _ _ _ => true
  | _ => false
  end.


(** [(err as AxiosError).response?.status]. *)
Definition response_status (err : Thrown) : option Z :=
  match err with
  | AxiosError (Some r) _ => Some (resp_status r)
  | _ => None
  end.

(** [(err as AxiosError).response?.data], when truthy. *)
Definition response_data (err : Thrown) : option string :=
  match err with
  | AxiosError (Some r) _ => resp_data r
  | _ => None
  end.

(** [(err as Error).message]; [String(undefined)] for the bare value. *)
Definition error_message (err : Thrown) : string :=
  match err with
  | AxiosError _ m | PlainError m | TrackingError m
  | ProviderError m _ _ _ _ | AuthenticationError m _ _ _ => m
  | UndefinedValue => "undefined"
  end.

(** The one-character string holding a double quote. *)
Definition dquote : string := String (Ascii.ascii_of_nat 34) EmptyString.

(** A settled promise. *)
Inductive Settled (A : Type) :=
| Fulfilled (value : A)
| Rejected (reason : Thrown).
Arguments Fulfilled {A} value.
Arguments Rejected {A} reason.

Abbreviation outcome := (Settled TrackingResult).

(** src/types.ts: [MiddlewareContext] (the provider reference and the options
    are not read by any middleware). *)
Record MiddlewareContext := {
  ctx_trackingNumber : string;
  ctx_courierCode : string
}.

(** ** Middleware bodies as effect trees *)

(** The body of [Middleware.execute(ctx, next)] over an instance state [W]:
    - [Done o]: return ([Fulfilled]) or throw ([Rejected]);
    - [CallNext k]: [await next()] under try/catch, the continuation receives
      how the call settled;
    - [DateNow k]: [Date.now()];
    - [SetTimeout ms k]: [await new Promise(r => setTimeout(r, ms))];
    - [GetSt k], [PutSt w k]: read and write the fields of [this];
    - [Emit msg k]: an observable side effect (a log line). *)
Inductive Prog (W : Type) : Type :=
| Done (o : outcome)
| CallNext (k : outcome -> Prog W)
| DateNow (k : Z -> Prog W)
| SetTimeout (ms : Z) (k : Prog W)
| GetSt (k : W -> Prog W)
| PutSt (w : W) (k : Prog W)
| Emit (msg : string) (k : Prog W).
Arguments Done {W} o.
Arguments CallNext {W} k.
Arguments DateNow {W} k.
Arguments SetTimeout {W} ms k.
Arguments GetSt {W} k.
Arguments PutSt {W} w k.
Arguments Emit {W} msg k.

(** src/middleware/types.ts: [Middleware]. *)
Abbreviation Middleware W := (MiddlewareContext -> Prog W).

(** What an execution leaves behind, in order. *)
Inductive Event :=
| EvTerminal            (* the terminal call [execute()] was invoked *)
| EvSleep (ms : Z)      (* a timer of [ms] milliseconds was awaited *)
| EvEmit (msg : string).

(** The state of one [executeMiddlewareChain] call: the middleware instances'
    fields ([heap]), the closure variable [index], and the bookkeeping of the
    environment (how many times the clock was read and the terminal call
    invoked, and the trace). *)
Record Run (W : Type) := {
  heap : W;
  index : nat;
  nowReads : nat;
  calls : nat;
  trace : list Event
}.
Arguments heap {W} _.
Arguments index {W} _.
Arguments nowReads {W} _.
Arguments calls {W} _.
Arguments trace {W} _.

Section Engine.
Context {W : Type}.
(** The environment: the n-th reading of [Date.now()] and how the n-th
    invocation of the terminal call settles. *)
Variable clock : nat -> Z.
Variable terminal : nat -> outcome.

Definition set_heap (w : W) (s : Run W) : Run W :=
  {| heap := w; index := index s; nowReads := nowReads s;
     calls := calls s; trace := trace s |}.

Definition set_index (i : nat) (s : Run W) : Run W :=
  {| heap := heap s; index := i; nowReads := nowReads s;
     calls := calls s; trace := trace s |}.

Definition tick (s : Run W) : Run W :=
  {| heap := heap s; index := index s; nowReads := S (nowReads s);
     calls := calls s; trace := trace s |}.

Definition record (e : Event) (s : Run W) : Run W :=
  {| heap := heap s; index := index s; nowReads := nowReads s;
     calls := calls s; trace := trace s ++ [e] |}.

(** The terminal call [execute()] (src/tracker.ts:61). *)
Definition execute (s : Run W) : outcome * Run W :=
  (terminal (calls s),
   {| heap := heap s; index := index s; nowReads := nowReads s;
      calls := S (calls s); trace := trace s ++ [EvTerminal] |}).

(** Running a middleware body, [next] being the continuation it was given. *)
Fixpoint runMw (next : Run W -> option (outcome * Run W))
         (p : Prog W) (s : Run W) : option (outcome * Run W) :=
  match p with
  | Done o => Some (o, s)
  | CallNext k =>
      match next s with
      | Some (o, s') => runMw next (k o) s'
      | None => None
      end
  | DateNow k => runMw next (k (clock (nowReads s))) (tick s)
  | SetTimeout ms k => runMw next k (record (EvSleep ms) s)
  | GetSt k => runMw next (k (heap s)) s
  | PutSt w k => runMw next k (set_heap w s)
  | Emit msg k => runMw next k (record (EvEmit msg) s)
  end.

Variable middlewares : list (Middleware W).
Variable ctx : MiddlewareContext.

(** src/tracker.ts:122-128, the closure [next]; [index] is the variable it
    shares with every other invocation of itself.  [fuel] bounds the
    nesting depth of the calls. *)
Fixpoint next (fuel : nat) (s : Run W) : option (outcome * Run W) :=
  if (length middlewares <=? index s)%nat then Some (execute s)
  else
    match fuel with
    | O => None
    | S fuel' =>
        match middlewares !! index s with
        | Some middleware =>
            runMw (next fuel') (middleware ctx) (set_index (S (index s)) s)
        | None => None
        end
    end.

(** src/tracker.ts:113-131, [executeMiddlewareChain]. *)
Definition executeMiddlewareChain (s : Run W) : option (outcome * Run W) :=
  if (length middlewares =? 0)%nat then Some (execute s)
  else next (length middlewares) (set_index 0%nat s).

(** A single middleware whose [next] is the terminal call. *)
Definition runAlone (p : Prog W) (s : Run W) : option (outcome * Run W) :=
  runMw (fun s' => Some (execute s')) p s.
End Engine.

(** A fresh run over the instance state [w]. *)
Definition start {W : Type} (w : W) : Run W :=
  {| heap := w; index := 0%nat; nowReads := 0%nat; calls := 0%nat; trace := [] |}.

(** ** RetryMiddleware (src/middleware/retry.ts) *)
Module Retry.

(** The fields set by the constructor. *)
Record t := {
  maxAttempts : Z;
  baseDelayMs : Z
}.

(** [RetryOptions]: both entries optional. *)
Record RetryOptions := {
  opt_maxAttempts : option Z;
  opt_baseDelayMs : option Z
}.

(** The options object [{}]. *)
Definition noOptions : RetryOptions :=
  {| opt_maxAttempts := None; opt_baseDelayMs := None |}.

(** The constructor: [options?.maxAttempts ?? 3],
    [options?.baseDelayMs ?? 1000]. *)
Definition new (options : option RetryOptions) : t :=
  {| maxAttempts := default 3 (options ≫= opt_maxAttempts);
     baseDelayMs := default 1000 (options ≫= opt_baseDelayMs) |}.

(** [isRetryable]: an AxiosError whose response status is 429 or at least
    500. *)
Definition isRetryable (err : Thrown) : bool :=
  if instanceof_AxiosError err then
    match response_status err with
    | Some status => (status =? 429) || (500 <=? status)
    | None => false
    end
  else false.

Section Execute.
Context {W : Type}.
Variable self : t.

(** The [for] loop of [execute], entered with the loop variable at
    [attempt]; [remaining] is the number of iterations the loop
    condition [attempt < maxAttempts] still admits. *)
Fixpoint loop (remaining : nat) (attempt : Z) (lastError : Thrown) : Prog W :=
  match remaining with
  | O => Done (Rejected lastError)
  | S remaining' =>
      CallNext (fun settled =>
        match settled with
        | Fulfilled result => Done (Fulfilled result)
        | Rejected err =>
            if negb (isRetryable err) || (attempt =? maxAttempts self - 1)
            then Done (Rejected err)
            else
              let delay := baseDelayMs self * 2 ^ attempt in
              SetTimeout delay (loop remaining' (attempt + 1) err)
        end)
  end.

(** [execute(ctx, next)]: [lastError] starts out undefined. *)
Definition execute : Middleware W :=
  fun _ => loop (Z.to_nat (maxAttempts self)) 0 UndefinedValue.
End Execute.
End Retry.

(** ** CircuitBreakerMiddleware (src/middleware/circuit-breaker.ts) *)
Module CircuitBreaker.

Inductive CircuitState := CLOSED | OPEN | HALF_OPEN.

Record CircuitInfo := {
  state : CircuitState;
  failures : Z;
  lastFailureTime : Z
}.

(** The fields set by the constructor. *)
Record t := {
  failureThreshold : Z;
  resetTimeoutMs : Z
}.

Record CircuitBreakerOptions := {
  opt_failureThreshold : option Z;
  opt_resetTimeoutMs : option Z
}.

(** The options object [{}]. *)
Definition noOptions : CircuitBreakerOptions :=
  {| opt_failureThreshold := None; opt_resetTimeoutMs := None |}.

(** The constructor: [options?.failureThreshold ?? 5],
    [options?.resetTimeoutMs ?? 30_000]. *)
Definition new (options : option CircuitBreakerOptions) : t :=
  {| failureThreshold := default 5 (options ≫= opt_failureThreshold);
     resetTimeoutMs := default 30000 (options ≫= opt_resetTimeoutMs) |}.

(** The record that [getCircuit] creates for a key it has not seen. *)
Definition fresh : CircuitInfo :=
  {| state := CLOSED; failures := 0; lastFailureTime := 0 |}.

(** [getCircuit(courierCode)]: the record of the key, created and stored on
    first use. *)
Definition getCircuit (circuits : gmap string CircuitInfo) (courierCode : string)
  : CircuitInfo * gmap string CircuitInfo :=
  match circuits !! courierCode with
  | Some circuit => (circuit, circuits)
  | None => (fresh, <[courierCode := fresh]> circuits)
  end.

(** [circuit.state = CircuitState.HALF_OPEN] (line 48). *)
Definition halfOpen (circuit : CircuitInfo) : CircuitInfo :=
  {| state := HALF_OPEN; failures := failures circuit;
     lastFailureTime := lastFailureTime circuit |}.

(** The success branch (lines 57-58): [state = CLOSED; failures = 0]. *)
Definition onSuccess (circuit : CircuitInfo) : CircuitInfo :=
  {| state := CLOSED; failures := 0;
     lastFailureTime := lastFailureTime circuit |}.

Section Execute.
Variable self : t.

(** The catch branch (lines 61-65): [failures++], [lastFailureTime = now],
    and [state = OPEN] once [failures >= failureThreshold]. *)
Definition onFailure (now : Z) (circuit : CircuitInfo) : CircuitInfo :=
  let failures' := failures circuit + 1 in
  {| state := if failureThreshold self <=? failures' then OPEN else state circuit;
     failures := failures';
     lastFailureTime := now |}.

Definition openMessage (courierCode : string) : string :=
  "Circuit breaker is open for provider " +:+ dquote +:+ courierCode +:+ dquote
  +:+ ". Requests are blocked.".

(** The record is a shared object: a write after an await goes to the object
    that the map holds for the key at that moment. *)
Definition update (courierCode : string) (f : CircuitInfo -> CircuitInfo)
           (k : Prog (gmap string CircuitInfo)) : Prog (gmap string CircuitInfo) :=
  GetSt (fun circuits => PutSt (alter f courierCode circuits) k).

(** The try/catch around [await next()] (lines 54-67). *)
Definition guarded (courierCode : string) : Prog (gmap string CircuitInfo) :=
  CallNext (fun settled =>
    match settled with
    | Fulfilled result =>
        update courierCode onSuccess (Done (Fulfilled result))
    | Rejected err =>
        DateNow (fun now =>
          update courierCode (onFailure now) (Done (Rejected err)))
    end).

(** [execute(ctx, next)]. *)
Definition execute : Middleware (gmap string CircuitInfo) :=
  fun ctx =>
    let courierCode := ctx_courierCode ctx in
    GetSt (fun circuits =>
      let '(circuit, circuits') := getCircuit circuits courierCode in
      PutSt circuits'
        match state circuit with
        | OPEN =>
            DateNow (fun now =>
              if resetTimeoutMs self <=? now - lastFailureTime circuit
              then update courierCode halfOpen (guarded courierCode)
              else Done (Rejected (TrackingError (openMessage courierCode))))
        | _ => guarded courierCode
        end).
End Execute.
End CircuitBreaker.

(** ** CacheMiddleware and MemoryCacheAdapter (src/middleware/cache.ts) *)
Module Cache.

Record Entry := {
  value : TrackingResult;
  expiresAt : Z
}.

(** The field set by the constructor; the adapter is the default
    [MemoryCacheAdapter], whose map is the instance state. *)
Record t := { ttlMs : Z }.

Record CacheOptions := { opt_ttlMs : option Z }.

(** The options object [{}]. *)
Definition noOptions : CacheOptions := {| opt_ttlMs := None |}.

(** The constructor: [options?.ttlMs ?? 5 * 60 * 1000]. *)
Definition new (options : option CacheOptions) : t :=
  {| ttlMs := default (5 * 60 * 1000) (options ≫= opt_ttlMs) |}.

(** [MemoryCacheAdapter.get(key)] at clock reading [now]: the value, and the
    map after the read (an expired entry is deleted). *)
Definition get (cache : gmap string Entry) (key : string) (now : Z)
  : option TrackingResult * gmap string Entry :=
  match cache !! key with
  | None => (None, cache)
  | Some entry =>
      if expiresAt entry <? now then (None, delete key cache)
      else (Some (value entry), cache)
  end.

(** [MemoryCacheAdapter.set(key, value, ttlMs)] at clock reading [now]. *)
Definition set (cache : gmap string Entry) (key : string)
           (v : TrackingResult) (ttl : Z) (now : Z) : gmap string Entry :=
  <[key := {| value := v; expiresAt := now + ttl |}]> cache.

(** [getCacheKey(ctx)]. *)
Definition getCacheKey (ctx : MiddlewareContext) : string :=
  ctx_courierCode ctx +:+ ":" +:+ ctx_trackingNumber ctx.

(** [await this.adapter.get(key)]: the clock is read only when the key is
    present. *)
Definition adapter_get (key : string)
           (k : option TrackingResult -> Prog (gmap string Entry))
  : Prog (gmap string Entry) :=
  GetSt (fun cache =>
    match cache !! key with
    | None => k None
    | Some _ =>
        DateNow (fun now =>
          let '(found, cache') := get cache key now in
          PutSt cache' (k found))
    end).

(** [await this.adapter.set(key, value, ttlMs)]. *)
Definition adapter_set (key : string) (v : TrackingResult) (ttl : Z)
           (k : Prog (gmap string Entry)) : Prog (gmap string Entry) :=
  DateNow (fun now =>
    GetSt (fun cache => PutSt (set cache key v ttl now) k)).

Section Execute.
Variable self : t.

(** [execute(ctx, next)]: a tracking result is an object, hence truthy. *)
Definition execute : Middleware (gmap string Entry) :=
  fun ctx =>
    let key := getCacheKey ctx in
    adapter_get key (fun cached =>
      match cached with
      | Some hit => Done (Fulfilled hit)
      | None =>
          CallNext (fun settled =>
            match settled with
            | Fulfilled result =>
                adapter_set key result (ttlMs self) (Done (Fulfilled result))
            | Rejected err => Done (Rejected err)
            end)
      end).
End Execute.
End Cache.

(** ** RateLimiterMiddleware (src/middleware/rate-limiter.ts) *)
Module RateLimiter.

(** Bottleneck's constructor options that the defaults set. *)
Record Limit := { maxConcurrent : Z; minTime : Z }.

Record RateLimiterOptions := { limits : option (list (string * Limit)) }.

(** The options object [{}]. *)
Definition noOptions : RateLimiterOptions := {| limits := None |}.

(** The constructor keeps the options ([options ?? {}]). *)
Record t := { options : RateLimiterOptions }.

Definition new (opts : option RateLimiterOptions) : t :=
  {| options := default noOptions opts |}.

(** [execute(ctx, next)]: [limiter.schedule(() => next())] defers the call
    until the limiter admits it, invokes it once and settles as it does.
    The deferral is a matter of timing, which is outside this model. *)
Definition execute {W : Type} (self : t) : Middleware W :=
  fun _ => CallNext (fun settled => Done settled).
End RateLimiter.

(** ** LoggerMiddleware (src/middleware/logger.ts) *)
Module Logger.

(** [LoggerOptions.log]: a sink, named by a tag; [console.log] when absent. *)
Record LoggerOptions := { opt_log : option string }.

(** The options object [{}]. *)
Definition noOptions : LoggerOptions := {| opt_log := None |}.

Record t := { log : string }.

Definition new (opts : option LoggerOptions) : t :=
  {| log := default "console.log" (opts ≫= opt_log) |}.

Definition prefix (ctx : MiddlewareContext) : string :=
  "[tracking] " +:+ ctx_courierCode ctx +:+ ":" +:+ ctx_trackingNumber ctx.

(** [execute(ctx, next)]. *)
Definition execute {W : Type} (self : t) : Middleware W :=
  fun ctx =>
    DateNow (fun start =>
      Emit (prefix ctx +:+ " - start")
        (CallNext (fun settled =>
          match settled with
          | Fulfilled result =>
              DateNow (fun finish =>
                Emit (prefix ctx +:+ " - success (" +:+ pretty (finish - start) +:+ "ms)")
                  (Done (Fulfilled result)))
          | Rejected err =>
              DateNow (fun finish =>
                Emit (prefix ctx +:+ " - error (" +:+ pretty (finish - start) +:+ "ms): "
                      +:+ error_message err)
                  (Done (Rejected err)))
          end))).
End Logger.

(** ** The tracker (src/tracker.ts) *)

(** The middleware instances that [createTracker] can build share one heap:
    the circuit records of the breaker and the entries of the cache. *)
Record Heap := {
  circuits : gmap string CircuitBreaker.CircuitInfo;
  cacheEntries : gmap string Cache.Entry
}.

Definition set_circuits (c : gmap string CircuitBreaker.CircuitInfo) (h : Heap) : Heap :=
  {| circuits := c; cacheEntries := cacheEntries h |}.

Definition set_cacheEntries (c : gmap string Cache.Entry) (h : Heap) : Heap :=
  {| circuits := circuits h; cacheEntries := c |}.

(** A middleware body over its own fields, run on a heap that holds them. *)
Fixpoint within {A B : Type} (get : B -> A) (set : A -> B -> B) (p : Prog A) : Prog B :=
  match p with
  | Done o => Done o
  | CallNext k => CallNext (fun o => within get set (k o))
  | DateNow k => DateNow (fun now => within get set (k now))
  | SetTimeout ms k => SetTimeout ms (within get set k)
  | GetSt k => GetSt (fun b => within get set (k (get b)))
  | PutSt a k => GetSt (fun b => PutSt (set a b) (within get set k))
  | Emit msg k => Emit msg (within get set k)
  end.

(** The five classes exported by src/middleware, as constructed. *)
Inductive MiddlewareInstance :=
| RateLimiterMiddleware (self : RateLimiter.t)
| RetryMiddleware (self : Retry.t)
| CircuitBreakerMiddleware (self : CircuitBreaker.t)
| CacheMiddleware (self : Cache.t)
| LoggerMiddleware (self : Logger.t).

(** The [execute] method of an instance. *)
Definition method (m : MiddlewareInstance) : Middleware Heap :=
  match m with
  | RateLimiterMiddleware self => RateLimiter.execute self
  | RetryMiddleware self => Retry.execute self
  | CircuitBreakerMiddleware self =>
      fun ctx => within circuits set_circuits (CircuitBreaker.execute self ctx)
  | CacheMiddleware self =>
      fun ctx => within cacheEntries set_cacheEntries (Cache.execute self ctx)
  | LoggerMiddleware self => Logger.execute self
  end.

(** [true | Options | false] of [CreateTrackerOptions]; an absent entry is
    [None] at the use site. *)
Inductive Toggle (A : Type) :=
| Off
| On
| Custom (config : A).
Arguments Off {A}.
Arguments On {A}.
Arguments Custom {A} config.

(** [CreateTrackerOptions.middlewares]. *)
Record MiddlewaresConfig := {
  cache : option (Toggle Cache.CacheOptions);
  retry : option (Toggle Retry.RetryOptions);
  rateLimiter : option (Toggle RateLimiter.RateLimiterOptions);
  circuitBreaker : option (Toggle CircuitBreaker.CircuitBreakerOptions);
  logger : option (Toggle Logger.LoggerOptions)
}.

(** [options?.middlewares ?? {}]. *)
Definition noMiddlewaresConfig : MiddlewaresConfig :=
  {| cache := None; retry := None; rateLimiter := None;
     circuitBreaker := None; logger := None |}.

(** A middleware that is on unless its entry is [false]
    (src/tracker.ts:154-175): [true] and an absent entry give the options
    [{}], an options object is passed on. *)
Definition enabledByDefault {A B : Type} (entry : option (Toggle A))
           (empty : A) (build : A -> B) : list B :=
  match entry with
  | Some Off => []
  | Some On | None => [build empty]
  | Some (Custom config) => [build config]
  end.

(** A middleware that is on only when its entry is truthy
    (src/tracker.ts:178-187). *)
Definition optIn {A B : Type} (entry : option (Toggle A))
           (empty : A) (build : A -> B) : list B :=
  match entry with
  | Some On => [build empty]
  | Some (Custom config) => [build config]
  | Some Off | None => []
  end.

(** The [middleware] array that [createTracker] hands to the constructor, in
    the order of its [push] calls. *)
Definition createTracker_middleware (middlewares : option MiddlewaresConfig)
  : list MiddlewareInstance :=
  let mwConfig := default noMiddlewaresConfig middlewares in
  enabledByDefault (rateLimiter mwConfig) RateLimiter.noOptions
    (fun config => RateLimiterMiddleware (RateLimiter.new (Some config)))
  ++ enabledByDefault (retry mwConfig) Retry.noOptions
       (fun config => RetryMiddleware (Retry.new (Some config)))
  ++ enabledByDefault (circuitBreaker mwConfig) CircuitBreaker.noOptions
       (fun config => CircuitBreakerMiddleware (CircuitBreaker.new (Some config)))
  ++ optIn (cache mwConfig) Cache.noOptions
       (fun config => CacheMiddleware (Cache.new (Some config)))
  ++ optIn (logger mwConfig) Logger.noOptions
       (fun config => LoggerMiddleware (Logger.new (Some config))).

(** What the tracker needs of a [BaseProvider]: its [name], its [code], the
    [courier_code]s of its [tsTrackingNumberCouriers], and how its
    [track(trackingNumber)] settles when it is the n-th terminal call. *)
Record Provider := {
  p_name : string;
  p_code : string;
  p_couriers : list string;
  p_track : string -> nat -> outcome
}.

(** A JavaScript [Map] with string keys: insertion-ordered, [set] on a
    present key replaces the value in place. *)
Fixpoint map_set {V : Type} (key : string) (v : V) (m : list (string * V))
  : list (string * V) :=
  match m with
  | [] => [(key, v)]
  | (key', v') :: m' =>
      if decide (key = key') then (key, v) :: m'
      else (key', v') :: map_set key v m'
  end.

Fixpoint map_get {V : Type} (key : string) (m : list (string * V)) : option V :=
  match m with
  | [] => None
  | (key', v') :: m' => if decide (key = key') then Some v' else map_get key m'
  end.

(** [xs.join(", ") || "(none)"]. *)
Definition join_or_none (xs : list string) : string :=
  let joined := String.concat ", " xs in
  if decide (joined = EmptyString) then "(none)" else joined.

(** src/types.ts: [TrackOptions]. *)
Record TrackOptions := { courierCode : option string }.



(** The fields of a [ShipmentTracker] over middlewares on the heap [W]. *)
Record ShipmentTracker (W : Type) := {
  providers : list (string * Provider);
  middlewares : list (Middleware W)
}.
Arguments providers {W} _.
Arguments middlewares {W} _.

Section Tracker.
Context {W : Type}.

(** [use(provider)] and [useMiddleware(middleware)]. *)
Definition use (provider : Provider) (self : ShipmentTracker W) : ShipmentTracker W :=
  {| providers := map_set (p_code provider) provider (providers self);
     middlewares := middlewares self |}.

Definition useMiddleware (middleware : Middleware W) (self : ShipmentTracker W)
  : ShipmentTracker W :=
  {| providers := providers self;
     middlewares := middlewares self ++ [middleware] |}.

(** The constructor: every provider, then every middleware, in order. *)
Definition newTracker (ps : list Provider) (ms : list (Middleware W)) : ShipmentTracker W :=
  foldl (fun t m => useMiddleware m t)
        (foldl (fun t p => use p t) {| providers := []; middlewares := [] |} ps) ms.

(** The environment: the clock, and [getTracking] of ts-tracking-number
    (the courier code it detects among the couriers offered, if any). *)
Variable clock : nat -> Z.
Variable getTracking : string -> list string -> option string.
Variable self : ShipmentTracker W.

(** [detectCourier(trackingNumber)]. *)
Definition detectCourier (trackingNumber : string) : Settled string :=
  let allCouriers := flat_map (fun kv => p_couriers kv.2) (providers self) in
  match getTracking trackingNumber allCouriers with
  | None =>
      Rejected (PlainError
        (dquote +:+ trackingNumber +:+ dquote
         +:+ " is not a valid tracking number for registered providers. "
         +:+ "Registered providers: "
         +:+ join_or_none (map (fun kv => p_name kv.2) (providers self))))
  | Some detectedCode =>
      match List.find (fun kv => bool_decide (detectedCode ∈ p_couriers kv.2))
                      (providers self) with
      | Some kv => Fulfilled (p_code kv.2)
      | None => Fulfilled detectedCode
      end
  end.

(** [track(trackingNumber, opts)].  The three [emit] calls are recorded in
    the trace; listeners are not modelled. *)
Definition track (trackingNumber : string) (opts : option TrackOptions)
           (s : Run W) : option (outcome * Run W) :=
  let resolved :=
    match opts ≫= courierCode with
    | Some code => Fulfilled code
    | None => detectCourier trackingNumber
    end in
  match resolved with
  | Rejected err => Some (Rejected err, s)
  | Fulfilled code =>
      match map_get code (providers self) with
      | None =>
          Some (Rejected (PlainError
            ("No provider registered for courier code " +:+ dquote +:+ code +:+ dquote
             +:+ ". Registered providers: "
             +:+ join_or_none (map fst (providers self)))), s)
      | Some provider =>
          let ctx := {| ctx_trackingNumber := trackingNumber; ctx_courierCode := code |} in
          match executeMiddlewareChain clock (p_track provider trackingNumber)
                  (middlewares self) ctx (record (EvEmit "track:start") s) with
          | None => None
          | Some (Fulfilled result, s') =>
              Some (Fulfilled result, record (EvEmit "track:success") s')
          | Some (Rejected err, s') =>
              Some (Rejected err, record (EvEmit "track:error") s')
          end
      end
  end.




End Tracker.

(** [createTracker(options)], for the middlewares part of the options; the
    providers come as already built. *)
Definition createTracker (ps : list Provider) (middlewares : option MiddlewaresConfig)
  : ShipmentTracker Heap :=
  newTracker ps (map method (createTracker_middleware middlewares)).

(** ** BaseProvider (src/providers/base-provider.ts) *)
Module BaseProvider.

Record TokenCache := {
  token : string;
  expiresAt : Z
}.

Definition TOKEN_BUFFER_MS : Z := 60000.

(** The body of the token endpoint's reply that [refreshToken] reads. *)
Record OAuthTokenResponse := {
  access_token : string;
  expires_in : Z
}.

(** The private fields [tokenCache] and [tokenPromise] of an instance, and
    the promises that [refreshToken] has returned so far: the n-th call of
    [refreshToken] issues the n-th request to the token endpoint and returns
    promise n, which is pending until it appears in [settled]. *)
Record State := {
  tokenCache : option TokenCache;
  tokenPromise : option nat;
  settled : gmap nat (Settled string);
  tokenRequests : nat
}.

Definition initial : State :=
  {| tokenCache := None; tokenPromise := None; settled := ∅; tokenRequests := 0%nat |}.

(** [this.tokenCache && Date.now() < this.tokenCache.expiresAt]. *)
Definition cachedToken (now : Z) (st : State) : option string :=
  match tokenCache st with
  | Some tc => if now <? expiresAt tc then Some (token tc) else None
  | None => None
  end.

(** How a call of [getToken] leaves its synchronous part: with the cached
    token, with the promise in flight (which it returns), or with the promise
    of the refresh it has just started (which it awaits). *)
Inductive Entered :=
| Cached (tok : string)
| Joined (p : nat)
| Started (p : nat).

(** [getToken], up to its first await (lines 145-157). *)
Definition getToken_enter (now : Z) (st : State) : Entered * State :=
  match cachedToken now st with
  | Some tok => (Cached tok, st)
  | None =>
      match tokenPromise st with
      | Some p => (Joined p, st)
      | None =>
          let p := tokenRequests st in
          (Started p,
           {| tokenCache := tokenCache st; tokenPromise := Some p;
              settled := settled st; tokenRequests := S (tokenRequests st) |})
      end
  end.

(** [refreshToken] after [await axios(...)] (lines 195-200): the reply of the
    token endpoint to request [p] arrives at clock reading [now]. *)
Definition refreshToken_settle (p : nat) (reply : Settled OAuthTokenResponse)
           (now : Z) (st : State) : State :=
  match reply with
  | Fulfilled data =>
      {| tokenCache :=
           Some {| token := access_token data;
                   expiresAt := now + expires_in data * 1000 - TOKEN_BUFFER_MS |};
         tokenPromise := tokenPromise st;
         settled := <[p := Fulfilled (access_token data)]> (settled st);
         tokenRequests := tokenRequests st |}
  | Rejected err =>
      {| tokenCache := tokenCache st; tokenPromise := tokenPromise st;
         settled := <[p := Rejected err]> (settled st);
         tokenRequests := tokenRequests st |}
  end.

(** The [finally] block of the call that started the refresh (line 160). *)
Definition getToken_finally (st : State) : State :=
  {| tokenCache := tokenCache st; tokenPromise := None;
     settled := settled st; tokenRequests := tokenRequests st |}.

(** [this.tokenCache = null] (line 209). *)
Definition invalidate (st : State) : State :=
  {| tokenCache := None; tokenPromise := tokenPromise st;
     settled := settled st; tokenRequests := tokenRequests st |}.

(** What a call that entered as [e] receives, once the promise it holds has
    settled. *)
Definition received (e : Entered) (st : State) : option (Settled string) :=
  match e with
  | Cached tok => Some (Fulfilled tok)
  | Joined p | Started p => settled st !! p
  end.

(** The synchronous parts of a burst of [getToken] calls, in call order. *)
Fixpoint enterAll (nows : list Z) (st : State) : list Entered * State :=
  match nows with
  | [] => ([], st)
  | now :: rest =>
      let '(e, st') := getToken_enter now st in
      let '(es, st'') := enterAll rest st' in
      (e :: es, st'')
  end.

(** One request served on its own: the instance, the clock reads so far and
    the tokens that the data calls were made with. *)
Record World := {
  instance : State;
  nowReads : nat;
  dataCalls : list string
}.

Section Track.
(** The instance's [name] and [code]. *)
Variable name : string.
Variable code : string.
(** The environment: the clock, the reply to the n-th token request, and how
    the n-th data call settles for the token it carries. *)
Variable clock : nat -> Z.
Variable tokenEndpoint : nat -> Settled OAuthTokenResponse.
Variable dataEndpoint : nat -> string -> Settled string.
(** The hooks of the subclass: what [validateCreds] and [checkForError]
    throw, if anything, and [parseResponse]. *)
Variable validateCreds : option Thrown.
Variable checkForError : string -> option Thrown.
Variable parseResponse : string -> Settled (list TrackingEvent * option Z).

Definition with_instance (st : State) (w : World) : World :=
  {| instance := st; nowReads := nowReads w; dataCalls := dataCalls w |}.

(** [Date.now()]. *)
Definition readClock (w : World) : Z * World :=
  (clock (nowReads w),
   {| instance := instance w; nowReads := S (nowReads w); dataCalls := dataCalls w |}).

(** [await this.getToken(baseUrl)] with no other request of the instance
    running: the refresh it starts is answered and its [finally] runs before
    anything else happens.  A promise that is in flight and never settles
    leaves the call waiting ([None]). *)
Definition getToken (w : World) : option (Settled string * World) :=
  let '(now, w1) :=
    match tokenCache (instance w) with
    | Some _ => readClock w
    | None => (0, w)
    end in
  let '(e, st) := getToken_enter now (instance w1) in
  match e with
  | Cached tok => Some (Fulfilled tok, w1)
  | Joined p =>
      match settled st !! p with
      | Some result => Some (result, w1)
      | None => None
      end
  | Started p =>
      let reply := tokenEndpoint p in
      let '(now', w2) :=
        match reply with
        | Fulfilled _ => readClock w1
        | Rejected _ => (0, w1)
        end in
      let st' := getToken_finally (refreshToken_settle p reply now' st) in
      match settled st' !! p with
      | Some result => Some (result, with_instance st' w2)
      | None => None
      end
  end.

(** [await this.fetchTrackingData(baseUrl, trackingNumber, token)]. *)
Definition fetchTrackingData (tok : string) (w : World) : Settled string * World :=
  (dataEndpoint (length (dataCalls w)) tok,
   {| instance := instance w; nowReads := nowReads w;
      dataCalls := dataCalls w ++ [tok] |}).

(** [fetchWithAuthRetry(baseUrl, trackingNumber, token)] (lines 203-215). *)
Definition fetchWithAuthRetry (tok : string) (w : World)
  : option (Settled string * World) :=
  match fetchTrackingData tok w with
  | (Fulfilled data, w1) => Some (Fulfilled data, w1)
  | (Rejected err, w1) =>
      if decide (response_status err = Some 401) then
        match getToken (with_instance (invalidate (instance w1)) w1) with
        | None => None
        | Some (Rejected err', w2) => Some (Rejected err', w2)
        | Some (Fulfilled newToken, w2) => Some (fetchTrackingData newToken w2)
        end
      else Some (Rejected err, w1)
  end.

(** The catch block of [track] (lines 87-106). *)
Definition wrap (trackingNumber : string) (err : Thrown) : Thrown :=
  if instanceof_ProviderError err || instanceof_AuthenticationError err then err
  else
    match response_data err with
    | Some data =>
        ProviderError data name trackingNumber (Some data) (Some err)
    | None =>
        ProviderError (error_message err) name trackingNumber None (Some err)
    end.

(** The try block of [track] (lines 75-86). *)
Definition attempt (trackingNumber : string) (w : World)
  : option (outcome * World) :=
  match getToken w with
  | None => None
  | Some (Rejected err, w1) => Some (Rejected err, w1)
  | Some (Fulfilled tok, w1) =>
      match fetchWithAuthRetry tok w1 with
      | None => None
      | Some (Rejected err, w2) => Some (Rejected err, w2)
      | Some (Fulfilled data, w2) =>
          match checkForError data with
          | Some err => Some (Rejected err, w2)
          | None =>
              match parseResponse data with
              | Rejected err => Some (Rejected err, w2)
              | Fulfilled (evs, eta) =>
                  Some (Fulfilled {| events := evs; estimatedDeliveryTime := eta;
                                     courier := code; trackingNumber := trackingNumber;
                                     raw := data |}, w2)
              end
          end
      end
  end.

(** [track(trackingNumber)]. *)
Definition track (trackingNumber : string) (w : World) : option (outcome * World) :=
  match validateCreds with
  | Some err => Some (Rejected err, w)
  | None =>
      match attempt trackingNumber w with
      | None => None
      | Some (Fulfilled result, w') => Some (Fulfilled result, w')
      | Some (Rejected err, w') => Some (Rejected (wrap trackingNumber err), w')
      end
  end.
End Track.
End BaseProvider.

(** ** Reference points for the properties *)

(** The composed call as section 4.6 of the specification words it: the
    [next()] of each middleware invokes the remainder of the chain, the
    terminal call if it is last. *)
Fixpoint onion {W : Type} (clock : nat -> Z) (terminal : nat -> outcome)
         (middlewares : list (Middleware W)) (ctx : MiddlewareContext)
  : Run W -> option (outcome * Run W) :=
  match middlewares with
  | [] => fun s => Some (execute terminal s)
  | middleware :: rest =>
      runMw clock (onion clock terminal rest ctx) (middleware ctx)
  end.

(** The middlewares of the test "executes middleware in order (onion model)"
    (src/__tests__/tracker.test.ts): push a mark, await [next()], push a
    mark, return the result. *)
Definition marking {W : Type} (name : string) : Middleware W :=
  fun _ =>
    Emit (name +:+ "-before")
      (CallNext (fun settled =>
        match settled with
        | Fulfilled result => Emit (name +:+ "-after") (Done (Fulfilled result))
        | Rejected err => Done (Rejected err)
        end)).

(** An AxiosError for a reply with the given status and no body. *)
Definition httpError (status : Z) : Thrown :=
  AxiosError (Some {| resp_status := status; resp_data := None |})
             ("Request failed with status code " +:+ pretty status).

Definition sampleResult : TrackingResult :=
  {| events := [{| status := Some DELIVERED; label := Some "Delivered";
                   location := None; time := None |}];
     estimatedDeliveryTime := None;
     courier := "mock"; trackingNumber := "123"; raw := "{}" |}.

Definition sampleCtx : MiddlewareContext :=
  {| ctx_trackingNumber := "123"; ctx_courierCode := "mock" |}.

Definition emptyHeap : Heap := {| circuits := ∅; cacheEntries := ∅ |}.

(** A terminal call that fails with HTTP 500 the first [n] times and
    succeeds afterwards. *)
Definition failsFirst (n : nat) : nat -> outcome :=
  fun i => if (i <? n)%nat then Rejected (httpError 500) else Fulfilled sampleResult.

(** What is read off a finished run. *)
Definition observe {W : Type} (r : option (outcome * Run W))
  : option (outcome * nat * list Event) :=
  (fun '(o, s) => (o, calls s, trace s)) <$> r.

(** The failure count that a finished run leaves in the breaker's record of
    a courier code. *)
Definition failuresRecorded (code : string) (r : option (outcome * Run Heap))
  : option Z :=
  match r with
  | Some (_, s) => CircuitBreaker.failures <$> circuits (heap s) !! code
  | None => None
  end.

(** The events of [n] consecutive attempts of the retry loop, the first of
    them being attempt number [a]: a timer between two attempts, none before
    the first and none after the last. *)
Fixpoint attemptsTrace (base : Z) (a : Z) (n : nat) : list Event :=
  match n with
  | O => []
  | S n' =>
      EvTerminal ::
      match n' with
      | O => []
      | S _ => EvSleep (base * 2 ^ a) :: attemptsTrace base (a + 1) n'
      end
  end.

(** For each invocation of the terminal call in a trace, in order: the timer
    awaited since the previous invocation, if any. *)
Fixpoint delaysBefore (pending : option Z) (tr : list Event) : list (option Z) :=
  match tr with
  | [] => []
  | EvSleep ms :: tr' => delaysBefore (Some ms) tr'
  | EvTerminal :: tr' => pending :: delaysBefore None tr'
  | EvEmit _ :: tr' => delaysBefore pending tr'
  end.

(** A failure that carries an HTTP status of 429 or of at least 500. *)
Definition carriesRetryableStatus (err : Thrown) : Prop :=
  exists status, response_status err = Some status /\ (status = 429 \/ 500 <= status).

(** The record that the breaker holds, or would create, for a courier code. *)
Definition circuitAt (code : string) (s : Run (gmap string CircuitBreaker.CircuitInfo))
  : CircuitBreaker.CircuitInfo :=
  (CircuitBreaker.getCircuit (heap s) code).1.


(** The state of a breaker after [n] calls of [execute] for the same courier
    code, one after the other, on a new instance. *)
Fixpoint history (self : CircuitBreaker.t) (clock : nat -> Z)
         (terminal : nat -> outcome) (ctx : MiddlewareContext) (n : nat)
  : option (Run (gmap string CircuitBreaker.CircuitInfo)) :=
  match n with
  | O => Some (start ∅)
  | S n' =>
      match history self clock terminal ctx n' with
      | Some s =>
          snd <$> runAlone clock terminal (CircuitBreaker.execute self ctx) s
      | None => None
      end
  end.

(** The records that the code can produce: the one [getCircuit] creates,
    and what the three writes of [execute] make of a record. The move to
    HALF_OPEN is made only from OPEN (line 46). *)
Inductive reachable (self : CircuitBreaker.t) : CircuitBreaker.CircuitInfo -> Prop :=
| reach_fresh : reachable self CircuitBreaker.fresh
| reach_halfOpen c :
    reachable self c -> CircuitBreaker.state c = CircuitBreaker.OPEN ->
    reachable self (CircuitBreaker.halfOpen c)
| reach_success c :
    reachable self c -> reachable self (CircuitBreaker.onSuccess c)
| reach_failure c now :
    reachable self c -> reachable self (CircuitBreaker.onFailure self now c).

(** What the try/catch of the breaker's [execute] makes of a record when
    [next()] has settled, [now] being the clock reading of the catch
    branch. *)
Definition afterNext (self : CircuitBreaker.t) (settled : outcome) (now : Z)
           (c : CircuitBreaker.CircuitInfo) : CircuitBreaker.CircuitInfo :=
  match settled with
  | Fulfilled _ => CircuitBreaker.onSuccess c
  | Rejected _ => CircuitBreaker.onFailure self now c
  end.



(** An entry of the middlewares configuration that is [false], one that is
    truthy ([true] or an options object), and the options it stands for. *)
Definition isFalse {A : Type} (entry : option (Toggle A)) : bool :=
  match entry with Some Off => true | _ => false end.

Definition isTruthy {A : Type} (entry : option (Toggle A)) : bool :=
  match entry with Some On | Some (Custom _) => true | _ => false end.

Definition optionsOf {A : Type} (empty : A) (entry : option (Toggle A)) : A :=
  match entry with Some (Custom config) => config | _ => empty end.

(** A provider in the manner of the tests' MockProvider: every call of
    [track] resolves. *)
Definition mockProvider : Provider :=
  {| p_name := "MockCourier"; p_code := "mock"; p_couriers := [];
     p_track := fun trackingNumber _ =>
       Fulfilled {| events := [{| status := Some DELIVERED; label := Some "Delivered";
                                  location := None; time := None |}];
                    estimatedDeliveryTime := None;
                    courier := "mock"; trackingNumber := trackingNumber;
                    raw := "{}" |} |}.

(** How the promise of [refreshToken] settles for a reply of the token
    endpoint: with [data.access_token], or with the failure of the
    request. *)
Definition refreshResult (reply : Settled BaseProvider.OAuthTokenResponse)
  : Settled string :=
  match reply with
  | Fulfilled data => Fulfilled (BaseProvider.access_token data)
  | Rejected err => Rejected err
  end.

(** ** Further reference points *)

(** A middleware body that awaits [next()] at most [n] times, whatever the
    calls return. *)
Fixpoint nextAtMost {W : Type} (n : nat) (p : Prog W) : Prop :=
  match p with
  | Done _ => True
  | CallNext k =>
      match n with
      | O => False
      | S n' => forall settled, nextAtMost n' (k settled)
      end
  | DateNow k => forall now, nextAtMost n (k now)
  | SetTimeout _ k => nextAtMost n k
  | GetSt k => forall w, nextAtMost n (k w)
  | PutSt _ k => nextAtMost n k
  | Emit _ k => nextAtMost n k
  end.

(** What a finished chain call leaves, the private variable [index] apart. *)
Definition visible {W : Type} (r : option (outcome * Run W))
  : option (outcome * W * nat * nat * list Event) :=
  (fun '(o, s) => (o, heap s, nowReads s, calls s, trace s)) <$> r.

(** Two runs that differ in [index] at most, and two results of the chain
    that do. *)
Definition alike {W : Type} (s s' : Run W) : Prop :=
  heap s = heap s' /\ nowReads s = nowReads s'
  /\ calls s = calls s' /\ trace s = trace s'.

Definition alikeR {W : Type} (r r' : option (outcome * Run W)) : Prop :=
  match r, r' with
  | Some (o, s), Some (o', s') => o = o' /\ alike s s'
  | None, None => True
  | _, _ => False
  end.

(** Every record of a breaker's map is one the code can produce. *)
Definition allReachable (self : CircuitBreaker.t)
           (m : gmap string CircuitBreaker.CircuitInfo) : Prop :=
  forall code c, m !! code = Some c -> reachable self c.

(** A providers map in which every provider sits under its own code, each
    code once. *)
Definition wellKeyed (m : list (string * Provider)) : Prop :=
  NoDup (map fst m) /\ forall k p, (k, p) ∈ m -> k = p_code p.

(** A continuation that only adds to the trace. *)
Definition appends {W : Type} (h : Run W -> option (outcome * Run W)) : Prop :=
  forall s o s', h s = Some (o, s') -> exists more, trace s' = trace s ++ more.

(** ** BaseProvider: configuration (src/providers/base-provider.ts) *)

(** src/types.ts: [ProviderCredentials]. *)
Record ProviderCredentials := {
  clientId : option string;
  clientSecret : option string
}.

(** [ProviderConfig], for the fields that [getBaseUrl], [getCreds] and
    [validateCreds] read. *)
Record ProviderConfig := {
  cfg_url : option string;
  cfg_creds : option ProviderCredentials;
  cfg_defaultUrl_dev : string;
  cfg_defaultUrl_prod : string;
  cfg_envVar_clientId : string;
  cfg_envVar_clientSecret : string
}.

(** A string value that is truthy: defined and not empty. *)
Definition truthy (v : option string) : bool :=
  match v with
  | Some s => negb (bool_decide (s = EmptyString))
  | None => false
  end.

(** [getBaseUrl()], over [process.env]. *)
Definition getBaseUrl (config : ProviderConfig) (env : gmap string string) : string :=
  if truthy (cfg_url config) then default EmptyString (cfg_url config)
  else if bool_decide (env !! "NODE_ENV" = Some "production")
       then cfg_defaultUrl_prod config
       else cfg_defaultUrl_dev config.

(** [getCreds()]. *)
Definition getCreds (config : ProviderConfig) (env : gmap string string)
  : ProviderCredentials :=
  match cfg_creds config with
  | Some creds => creds
  | None =>
      {| clientId := env !! cfg_envVar_clientId config;
         clientSecret := env !! cfg_envVar_clientSecret config |}
  end.

Definition missingVariable (variable name : string) : Thrown :=
  PlainError ("Environment variable " +:+ dquote +:+ variable +:+ dquote
              +:+ " must be set in order to use " +:+ name +:+ " tracking.").

(** [validateCreds()]: what it throws, if anything. *)
Definition validateCreds (config : ProviderConfig) (env : gmap string string)
           (name : string) : option Thrown :=
  match cfg_creds config with
  | Some _ => None
  | None =>
      if negb (truthy (env !! cfg_envVar_clientId config))
      then Some (missingVariable (cfg_envVar_clientId config) name)
      else if negb (truthy (env !! cfg_envVar_clientSecret config))
           then Some (missingVariable (cfg_envVar_clientSecret config) name)
           else None
  end.

(** ** Provider utilities (src/providers/utils.ts) *)

(** [[city, state, country, zip].filter(Boolean).join(" ") || undefined]. *)
Definition getLocation (city state country zip : option string) : option string :=
  let parts := omap (fun v => if truthy v then v else None) [city; state; country; zip] in
  let joined := String.concat " " parts in
  if bool_decide (joined = EmptyString) then None else Some joined.
(** ** The chain engine: the calls always return *)

Section EngineFacts.
Context {W : Type}.
Variable clock : nat -> Z.
Variable terminal : nat -> outcome.

(** A continuation that never moves [index] backwards. *)
Definition monotone (h : Run W -> option (outcome * Run W)) : Prop :=
  forall s o s', h s = Some (o, s') -> (index s <= index s')%nat.


Lemma runMw_total h p (bound : nat) :
  monotone h ->
  (forall s, (bound <= index s)%nat -> is_Some (h s)) ->
  forall s, (bound <= index s)%nat -> is_Some (runMw clock h p s).
Proof.
  intros Hmono Hh.
  induction p as [o|k IH|k IH|ms k IH|k IH|w k IH|msg k IH]; intros s Hs; simpl.
  - eauto.
  - destruct (Hh s Hs) as [[o1 s1] E]. rewrite E.
    apply IH. apply Hmono in E. lia.
  - by apply IH.
  - by apply IH.
  - by apply IH.
  - by apply IH.
  - by apply IH.
Qed.

Variable middlewares : list (Middleware W).
Variable ctx : MiddlewareContext.




(** A middleware on its own always returns. *)
Lemma runAlone_total (p : Prog W) (s : Run W) : is_Some (runAlone clock terminal p s).
Proof.
  unfold runAlone. apply (runMw_total _ _ 0%nat); [|eauto|lia].
  intros s1 o s2 H. inversion H. simpl. lia.
Qed.
End EngineFacts.

(** ** The middleware chain *)

(** With no middleware the terminal call is invoked directly. *)
Lemma chain_empty {W : Type} clock terminal ctx (s : Run W) :
  executeMiddlewareChain clock terminal [] ctx s = Some (execute terminal s).
Proof. reflexivity. Qed.

(** Middlewares [A, B] that each await [next()] once run as
    A.before, B.before, T, B.after, A.after. *)
Lemma chain_onion_order clock :
  observe (executeMiddlewareChain clock (failsFirst 0)
             [marking "A"; marking "B"] sampleCtx (start ()))
  = Some (Fulfilled sampleResult, 1%nat,
          [EvEmit "A-before"; EvEmit "B-before"; EvTerminal;
           EvEmit "B-after"; EvEmit "A-after"]).
Proof. reflexivity. Qed.

(** C1, evaluated where it fails.  [next] reads the shared variable [index],
    which the first pass through the chain has already moved to the end, so
    a second [next()] of the same middleware invokes the terminal call
    directly instead of the remainder of the chain:
    - with [RetryMiddleware, B] and a terminal call that fails once with
      HTTP 500, the retried attempt does not pass through B, whereas the
      onion of the specification runs B around both attempts;
    - in the default pipeline of [createTracker], three failed attempts
      leave the breaker's record with one failure instead of three. *)
Theorem chain_repeated_next_skips_rest :
  let retry2 := {| Retry.maxAttempts := 2; Retry.baseDelayMs := 1000 |} in
  let pipeline := map method (createTracker_middleware None) in
  let failing : nat -> outcome := fun _ => Rejected (httpError 500) in
  observe (executeMiddlewareChain (fun _ => 0) (failsFirst 1)
             [Retry.execute retry2; marking "B"] sampleCtx (start ()))
  = Some (Fulfilled sampleResult, 2%nat,
          [EvEmit "B-before"; EvTerminal; EvSleep 1000; EvTerminal])
  /\ observe (onion (fun _ => 0) (failsFirst 1)
             [Retry.execute retry2; marking "B"] sampleCtx (start ()))
  = Some (Fulfilled sampleResult, 2%nat,
          [EvEmit "B-before"; EvTerminal; EvSleep 1000;
           EvEmit "B-before"; EvTerminal; EvEmit "B-after"])
  /\ failuresRecorded "mock" (executeMiddlewareChain (fun _ => 0) failing pipeline
                      sampleCtx (start emptyHeap)) = Some 1
  /\ failuresRecorded "mock" (onion (fun _ => 0) failing pipeline
                      sampleCtx (start emptyHeap)) = Some 3.
Proof. vm_compute. repeat split; reflexivity. Qed.

(** ** RetryMiddleware *)

Lemma isRetryable_spec err :
  Retry.isRetryable err = true <-> carriesRetryableStatus err.
Proof.
  unfold Retry.isRetryable, carriesRetryableStatus.
  destruct err as [[r|] m| | | | |]; simpl; split;
    try (intros [st [? _]]; discriminate); try discriminate.
  - intros H. exists (resp_status r). split; [done|].
    apply orb_true_iff in H as [H|H]; [left|right]; lia.
  - intros [st [[= <-] H]]. apply orb_true_iff. destruct H; [left|right]; lia.
Qed.

Section RetryFacts.
Context {W : Type}.
Variable clock : nat -> Z.
Variable terminal : nat -> outcome.
Variable self : Retry.t.


(** One iteration of the loop. *)
Lemma loop_step r a last (s : Run W) :
  runAlone clock terminal (Retry.loop self (S r) a last) s =
  match terminal (calls s) with
  | Fulfilled v => Some (Fulfilled v, (execute terminal s).2)
  | Rejected err =>
      if negb (Retry.isRetryable err) || (a =? Retry.maxAttempts self - 1)
      then Some (Rejected err, (execute terminal s).2)
      else runAlone clock terminal (Retry.loop self r (a + 1) err)
             (record (EvSleep (Retry.baseDelayMs self * 2 ^ a)) (execute terminal s).2)
  end.
Proof.
  unfold runAlone. simpl.
  destruct (terminal (calls s)) as [v|err]; [done|].
  by destruct (negb (Retry.isRetryable err) || (a =? Retry.maxAttempts self - 1)).
Qed.

(** What the loop does when entered at attempt [a] with the iterations
    that [attempt < maxAttempts] admits: it makes [n] invocations; all but
    the last failed with a retryable error before the last allowed attempt;
    the last one either succeeded, or failed with what is then thrown. *)
Lemma loop_spec r : forall a last (s : Run W),
  r = Z.to_nat (Retry.maxAttempts self - a) ->
  exists n o s',
    runAlone clock terminal (Retry.loop self r a last) s = Some (o, s')
    /\ calls s' = (calls s + n)%nat
    /\ (n <= r)%nat
    /\ heap s' = heap s
    /\ trace s' = trace s ++ attemptsTrace (Retry.baseDelayMs self) a n
    /\ (n = 0%nat -> r = 0%nat /\ o = Rejected last)
    /\ (forall j, (S j < n)%nat ->
          exists err, terminal (calls s + j)%nat = Rejected err
                      /\ Retry.isRetryable err = true
                      /\ a + Z.of_nat j <> Retry.maxAttempts self - 1)
    /\ (forall j, n = S j -> terminal (calls s + j)%nat = o)
    /\ (forall j err, n = S j -> o = Rejected err ->
          Retry.isRetryable err = false \/ a + Z.of_nat j = Retry.maxAttempts self - 1).
Proof.
  induction r as [|r IH]; intros a last s Hr.
  - exists 0%nat, (Rejected last), s. simpl.
    split; [done|]. split; [lia|]. split; [lia|]. split; [done|].
    split; [by rewrite app_nil_r|]. split; [done|].
    split; [intros; lia|]. split; intros; lia.
  - rewrite loop_step.
    destruct (terminal (calls s)) as [v|err] eqn:Ht.
    + exists 1%nat, (Fulfilled v), (execute terminal s).2. simpl.
      split; [done|]. split; [lia|]. split; [lia|]. split; [done|].
      split; [done|]. split; [lia|]. split; [intros; lia|]. split.
      * intros j [= <-]. by rewrite Nat.add_0_r.
      * intros j e _ [=].
    + destruct (negb (Retry.isRetryable err) || (a =? Retry.maxAttempts self - 1)) eqn:Hstop.
      * exists 1%nat, (Rejected err), (execute terminal s).2. simpl.
        split; [done|]. split; [lia|]. split; [lia|]. split; [done|].
        split; [done|]. split; [lia|]. split; [intros; lia|]. split.
        -- intros j [= <-]. by rewrite Nat.add_0_r.
        -- intros j e [= <-] [= <-].
           apply orb_true_iff in Hstop as [H|H].
           ++ left. by apply negb_true_iff.
           ++ right. lia.
      * apply orb_false_iff in Hstop as [Hretry Hnotlast].
        apply negb_false_iff in Hretry.
        assert (Hr' : r = Z.to_nat (Retry.maxAttempts self - (a + 1))) by lia.
        assert (Hpos : (1 <= r)%nat) by lia.
        destruct (IH (a + 1) err
                    (record (EvSleep (Retry.baseDelayMs self * 2 ^ a)) (execute terminal s).2) Hr')
          as (n & o & s' & Hrun & Hcalls & Hle & Hheap & Htrace & Hzero
              & Hmid & Hlast & Hwhy).
        simpl in Hcalls, Hheap, Htrace.
        assert (Hn : (1 <= n)%nat).
        { destruct n; [|lia]. destruct (Hzero eq_refl); lia. }
        exists (S n), o, s'. rewrite Hrun.
        split; [done|]. split; [lia|]. split; [lia|]. split; [done|].
        split.
        { rewrite Htrace, <- !app_assoc. simpl.
          destruct n as [|n]; [lia|done]. }
        split; [lia|]. split; [|split].
        -- intros [|j] Hj.
           ++ exists err. rewrite Nat.add_0_r. split; [done|]. split; [done|]. lia.
           ++ destruct (Hmid j ltac:(lia)) as (e & He & Hre & Hne).
              exists e. simpl in He.
              replace (calls s + S j)%nat with (S (calls s) + j)%nat by lia.
              split; [done|]. split; [done|]. lia.
        -- intros j [= ->]. destruct j as [|j]; [lia|].
           specialize (Hlast j eq_refl). simpl in Hlast.
           by replace (calls s + S j)%nat with (S (calls s) + j)%nat by lia.
        -- intros j e [= ->] ->. destruct j as [|j]; [lia|].
           destruct (Hwhy j e eq_refl eq_refl) as [H|H]; [by left|right; lia].
Qed.
End RetryFacts.

Lemma delaysBefore_attemptsTrace n : forall base a pending,
  delaysBefore pending (attemptsTrace base a n) =
  match n with
  | O => []
  | S n' => pending :: ((fun i => Some (base * 2 ^ (a + Z.of_nat i))) <$> seq 0 n')
  end.
Proof.
  induction n as [|n IH]; intros base a pending; [done|].
  destruct n as [|n]; [done|].
  change (attemptsTrace base a (S (S n)))
    with (EvTerminal :: EvSleep (base * 2 ^ a) :: attemptsTrace base (a + 1) (S n)).
  cbn [delaysBefore]. rewrite IH.
  cbn [seq fmap list_fmap]. rewrite Z.add_0_r, <- fmap_S_seq, <- list_fmap_compose.
  do 2 apply (f_equal2 cons eq_refl).
  apply list_fmap_ext. intros i x _. simpl. do 3 f_equal. lia.
Qed.

(** C5, where it fails as stated: with the default options and a terminal
    call that always fails with HTTP 500, the timer awaited before attempt 1
    is [baseDelayMs * 2^0 = 1000] and not [baseDelayMs * 2^1]. *)
Lemma retry_backoff_counterexample :
  exists o s',
    runAlone (fun _ => 0) (fun _ => Rejected (httpError 500))
      (Retry.execute (Retry.new None) sampleCtx) (start ()) = Some (o, s')
    /\ delaysBefore None (trace s') = [None; Some 1000; Some 2000]
    /\ ~ (forall n d, delaysBefore None (trace s') !! n = Some (Some d) ->
            d = Retry.baseDelayMs (Retry.new None) * 2 ^ Z.of_nat n).
Proof.
  eexists _, _. split; [reflexivity|]. split; [reflexivity|].
  intros H. specialize (H 1%nat 1000 eq_refl). vm_compute in H. discriminate.
Qed.

(** C5, amended: [execute] invokes downstream at most [maxAttempts] times
    (never, when [maxAttempts] is not positive); a timer is awaited only
    between two attempts, and the one that follows failed attempt [i]
    (0-indexed), that is the one before attempt [i + 1], lasts
    [baseDelayMs * 2^i]; and when there was an attempt the call settles
    exactly as the last attempt did, so that a final failure is thrown as it
    is. *)
Theorem retry_bounded_backoff {W : Type} (self : Retry.t)
        (clock : nat -> Z) (terminal : nat -> outcome)
        (ctx : MiddlewareContext) (s : Run W) :
  exists n o s',
    runAlone clock terminal (Retry.execute self ctx) s = Some (o, s')
    /\ calls s' = (calls s + n)%nat
    /\ Z.of_nat n <= Z.max 0 (Retry.maxAttempts self)
    /\ trace s' = trace s ++ attemptsTrace (Retry.baseDelayMs self) 0 n
    /\ delaysBefore None (attemptsTrace (Retry.baseDelayMs self) 0 n) !! 0%nat
       = (if decide (n = 0%nat) then None else Some None)
    /\ (forall i, (S i < n)%nat ->
          delaysBefore None (attemptsTrace (Retry.baseDelayMs self) 0 n) !! S i
          = Some (Some (Retry.baseDelayMs self * 2 ^ Z.of_nat i)))
    /\ (forall j, n = S j -> o = terminal (calls s + j)%nat).
Proof.
  destruct (loop_spec clock terminal self (Z.to_nat (Retry.maxAttempts self))
              0 UndefinedValue s)
    as (n & o & s' & Hrun & Hcalls & Hle & _ & Htrace & _ & _ & Hlast & _).
  { f_equal. lia. }
  exists n, o, s'. split; [exact Hrun|]. split; [done|]. split; [lia|].
  split; [done|]. rewrite delaysBefore_attemptsTrace.
  split; [by destruct n|]. split.
  - intros i Hi. destruct n as [|n]; [lia|].
    rewrite lookup_cons, list_lookup_fmap, lookup_seq_lt by lia. simpl.
    by rewrite Z.add_0_l.
  - intros j Hj. symmetry. by apply Hlast.
Qed.

(** An instance of [retry_bounded_backoff]: three attempts that all fail. *)
Lemma retry_bounded_backoff_witness :
  exists n o s',
    runAlone (fun _ => 0) (fun _ => Rejected (httpError 500))
      (Retry.execute (Retry.new None) sampleCtx) (start ()) = Some (o, s')
    /\ n = 3%nat /\ o = Rejected (httpError 500)
    /\ delaysBefore None (trace s') !! 2%nat = Some (Some 2000).
Proof.
  destruct (retry_bounded_backoff (Retry.new None) (fun _ => 0)
              (fun _ => Rejected (httpError 500)) sampleCtx (start ()))
    as (n & o & s' & Hrun & Hcalls & _ & _ & _ & _ & Hlast).
  exists n, o, s'. split; [exact Hrun|].
  vm_compute in Hrun. injection Hrun as <- <-.
  vm_compute in Hcalls. subst n.
  split; [reflexivity|]. split; reflexivity.
Defined.

(** ** CircuitBreakerMiddleware *)

(** The counts of the records that the code can produce. *)
Lemma reachable_counts (self : CircuitBreaker.t)
        (c : CircuitBreaker.CircuitInfo) :
  reachable self c ->
  (CircuitBreaker.state c <> CircuitBreaker.CLOSED ->
     CircuitBreaker.failureThreshold self <= CircuitBreaker.failures c)
  /\ (CircuitBreaker.failures c = 0 -> CircuitBreaker.state c = CircuitBreaker.CLOSED)
  /\ 0 <= CircuitBreaker.failures c
  /\ CircuitBreaker.failures (CircuitBreaker.halfOpen c) = CircuitBreaker.failures c
  /\ (forall now, CircuitBreaker.failures (CircuitBreaker.onFailure self now c)
                  = CircuitBreaker.failures c + 1)
  /\ (CircuitBreaker.state (CircuitBreaker.onSuccess c) = CircuitBreaker.CLOSED
      /\ CircuitBreaker.failures (CircuitBreaker.onSuccess c) = 0).
Proof.
  intros H.
  assert (Hinv : (CircuitBreaker.state c <> CircuitBreaker.CLOSED ->
                    CircuitBreaker.failureThreshold self <= CircuitBreaker.failures c
                    /\ 1 <= CircuitBreaker.failures c)
                 /\ 0 <= CircuitBreaker.failures c).
  { induction H as [|c _ [IH1 IH2] Hopen|c _ [IH1 IH2]|c now _ [IH1 IH2]]; simpl.
    - split; [done|lia].
    - split; [|done]. intros _. apply IH1. by rewrite Hopen.
    - split; [done|lia].
    - split; [|lia].
      destruct (Z.leb_spec (CircuitBreaker.failureThreshold self)
                           (CircuitBreaker.failures c + 1)).
      + intros _. lia.
      + intros Hs. destruct (IH1 Hs). lia. }
  destruct Hinv as [H1 H2].
  split; [intros Hs; by destruct (H1 Hs)|].
  split.
  { intros H0. destruct (CircuitBreaker.state c) eqn:E; [done| |];
      destruct H1 as [_ Hpos]; (discriminate || lia). }
  repeat split; done.
Qed.

(** C10.  Every record that the breaker can hold has a failure count of at
    least [failureThreshold] whenever its state is OPEN or HALF_OPEN; a
    count of 0 goes with the state CLOSED only, since the count is reset by
    the success branch alone, which sets CLOSED in the same step, while the
    two other writes keep or increase it. *)
Theorem breaker_open_has_threshold (self : CircuitBreaker.t)
        (c : CircuitBreaker.CircuitInfo) :
  reachable self c ->
  (CircuitBreaker.state c <> CircuitBreaker.CLOSED ->
     CircuitBreaker.failureThreshold self <= CircuitBreaker.failures c)
  /\ (CircuitBreaker.failures c = 0 -> CircuitBreaker.state c = CircuitBreaker.CLOSED)
  /\ 0 <= CircuitBreaker.failures c
  /\ CircuitBreaker.failures (CircuitBreaker.halfOpen c) = CircuitBreaker.failures c
  /\ (forall now, CircuitBreaker.failures (CircuitBreaker.onFailure self now c)
                  = CircuitBreaker.failures c + 1)
  /\ (CircuitBreaker.state (CircuitBreaker.onSuccess c) = CircuitBreaker.CLOSED
      /\ CircuitBreaker.failures (CircuitBreaker.onSuccess c) = 0).
Proof. apply reachable_counts. Qed.

(** An instance of [breaker_open_has_threshold]: the record after two
    failures under a threshold of 2 is OPEN with count 2. *)
Lemma breaker_open_has_threshold_witness :
  CircuitBreaker.state
    (CircuitBreaker.onFailure
       {| CircuitBreaker.failureThreshold := 2; CircuitBreaker.resetTimeoutMs := 60000 |} 20
       (CircuitBreaker.onFailure
          {| CircuitBreaker.failureThreshold := 2; CircuitBreaker.resetTimeoutMs := 60000 |} 10
          CircuitBreaker.fresh)) = CircuitBreaker.OPEN
  /\ 2 <= CircuitBreaker.failures
           (CircuitBreaker.onFailure
              {| CircuitBreaker.failureThreshold := 2; CircuitBreaker.resetTimeoutMs := 60000 |} 20
              (CircuitBreaker.onFailure
                 {| CircuitBreaker.failureThreshold := 2; CircuitBreaker.resetTimeoutMs := 60000 |} 10
                 CircuitBreaker.fresh)).
Proof.
  split; [reflexivity|].
  refine (proj1 (breaker_open_has_threshold
                   {| CircuitBreaker.failureThreshold := 2;
                      CircuitBreaker.resetTimeoutMs := 60000 |} _ _) _).
  - do 2 apply reach_failure. apply reach_fresh.
  - discriminate.
Defined.

Section BreakerRun.
Variable self : CircuitBreaker.t.
Variable clock : nat -> Z.

(** The try/catch around [await next()], for any continuation. *)
Lemma guarded_run h code (s : Run (gmap string CircuitBreaker.CircuitInfo)) :
  runMw clock h (CircuitBreaker.guarded self code) s =
  match h s with
  | None => None
  | Some (Fulfilled v, s1) =>
      Some (Fulfilled v,
            set_heap (alter CircuitBreaker.onSuccess code (heap s1)) s1)
  | Some (Rejected err, s1) =>
      Some (Rejected err,
            set_heap (alter (CircuitBreaker.onFailure self (clock (nowReads s1)))
                            code (heap s1)) (tick s1))
  end.
Proof.
  unfold CircuitBreaker.guarded. simpl.
  destruct (h s) as [[[v|err] s1]|]; reflexivity.
Qed.

(** [execute], for any continuation. *)
Lemma breaker_execute_run h ctx (s : Run (gmap string CircuitBreaker.CircuitInfo)) :
  runMw clock h (CircuitBreaker.execute self ctx) s =
  let code := ctx_courierCode ctx in
  let circuit := (CircuitBreaker.getCircuit (heap s) code).1 in
  let circuits' := (CircuitBreaker.getCircuit (heap s) code).2 in
  match CircuitBreaker.state circuit with
  | CircuitBreaker.OPEN =>
      if CircuitBreaker.resetTimeoutMs self
         <=? clock (nowReads s) - CircuitBreaker.lastFailureTime circuit
      then runMw clock h (CircuitBreaker.guarded self code)
             (set_heap (alter CircuitBreaker.halfOpen code circuits')
                       (tick (set_heap circuits' s)))
      else Some (Rejected (TrackingError (CircuitBreaker.openMessage code)),
                 tick (set_heap circuits' s))
  | _ => runMw clock h (CircuitBreaker.guarded self code) (set_heap circuits' s)
  end.
Proof.
  unfold CircuitBreaker.execute. cbn [runMw].
  destruct (CircuitBreaker.getCircuit (heap s) (ctx_courierCode ctx))
    as [circuit circuits'] eqn:E.
  cbn [fst snd runMw].
  destruct (CircuitBreaker.state circuit); try reflexivity.
  cbn [runMw set_heap heap nowReads].
  destruct (CircuitBreaker.resetTimeoutMs self
            <=? clock (nowReads s) - CircuitBreaker.lastFailureTime circuit);
    reflexivity.
Qed.

(** The record of a code after a write to it. *)
Lemma getCircuit_snd_lookup (m : gmap string CircuitBreaker.CircuitInfo) code :
  (CircuitBreaker.getCircuit m code).2 !! code
  = Some (CircuitBreaker.getCircuit m code).1.
Proof.
  unfold CircuitBreaker.getCircuit.
  destruct (m !! code) eqn:E; simpl; [done|]. by rewrite lookup_insert_eq.
Qed.

Lemma getCircuit_alter f (m : gmap string CircuitBreaker.CircuitInfo) code c :
  m !! code = Some c ->
  (CircuitBreaker.getCircuit (alter f code m) code).1 = f c.
Proof.
  intros H. unfold CircuitBreaker.getCircuit.
  by rewrite lookup_alter_eq, H.
Qed.
End BreakerRun.

Section BreakerCalls.
Variable self : CircuitBreaker.t.
Variable clock : nat -> Z.
Variable terminal : nat -> outcome.
Variable ctx : MiddlewareContext.

(** One call of [execute] whose [next] is the terminal call, by the state
    of the record on entry. *)
Lemma breaker_call (s : Run (gmap string CircuitBreaker.CircuitInfo)) :
  let code := ctx_courierCode ctx in
  let c := circuitAt code s in
  let now := clock (nowReads s) in
  exists o s',
    runAlone clock terminal (CircuitBreaker.execute self ctx) s = Some (o, s')
    /\ (CircuitBreaker.state c = CircuitBreaker.OPEN ->
        now - CircuitBreaker.lastFailureTime c < CircuitBreaker.resetTimeoutMs self ->
        o = Rejected (TrackingError (CircuitBreaker.openMessage code))
        /\ calls s' = calls s /\ trace s' = trace s /\ circuitAt code s' = c)
    /\ (CircuitBreaker.state c = CircuitBreaker.OPEN ->
        CircuitBreaker.resetTimeoutMs self <= now - CircuitBreaker.lastFailureTime c ->
        runAlone clock terminal (CircuitBreaker.execute self ctx) s
        = runAlone clock terminal (CircuitBreaker.guarded self code)
            (tick (set_heap (<[code := CircuitBreaker.halfOpen c]> (heap s)) s))
        /\ calls s' = S (calls s) /\ o = terminal (calls s)
        /\ circuitAt code s'
           = afterNext self o (clock (S (nowReads s))) (CircuitBreaker.halfOpen c))
    /\ (CircuitBreaker.state c <> CircuitBreaker.OPEN ->
        calls s' = S (calls s) /\ o = terminal (calls s)
        /\ circuitAt code s' = afterNext self o now c).
Proof.
  intros code c now. unfold runAlone. rewrite breaker_execute_run.
  fold code. cbn zeta.
  pose proof (getCircuit_snd_lookup (heap s) code) as Hlk.
  change ((CircuitBreaker.getCircuit (heap s) code).1) with c in *.
  set (m1 := (CircuitBreaker.getCircuit (heap s) code).2) in *.
  destruct (CircuitBreaker.state c) eqn:Hst.
  - (* CLOSED *)
    rewrite guarded_run. cbn [execute set_heap heap calls nowReads trace].
    destruct (terminal (calls s)) as [v|err] eqn:Ht; eexists _, _;
      (split; [reflexivity|]); (split; [intros [=]|]); (split; [intros [=]|]);
      intros _; cbn [calls tick set_heap]; (split; [done|]); (split; [done|]);
      unfold circuitAt; cbn [heap set_heap tick afterNext];
      by apply getCircuit_alter.
  - (* OPEN *)
    destruct (Z.leb_spec (CircuitBreaker.resetTimeoutMs self)
                (clock (nowReads s) - CircuitBreaker.lastFailureTime c)) as [Hel|Hwait].
    + assert (Hm1 : m1 = heap s).
      { subst m1. unfold CircuitBreaker.getCircuit, circuitAt,
          CircuitBreaker.getCircuit in *. subst c.
        destruct (heap s !! code) eqn:E; [done|]. simpl in Hst. discriminate. }
      assert (Halt : alter CircuitBreaker.halfOpen code m1
                     = <[code := CircuitBreaker.halfOpen c]> (heap s)).
      { rewrite <- Hm1. apply map_eq. intros k.
        destruct (decide (code = k)) as [<-|Hne].
        - by rewrite lookup_alter_eq, lookup_insert_eq, Hlk.
        - by rewrite lookup_alter_ne, lookup_insert_ne. }
      rewrite Halt, !guarded_run. cbn [execute set_heap heap calls nowReads trace tick].
      destruct (terminal (calls s)) as [v|err] eqn:Ht; eexists _, _;
        (split; [reflexivity|]); (split; [intros _ ?; subst now; lia|]);
        (split; [|intros; done]); intros _ _;
        (split; [rewrite Hm1; reflexivity|]);
        cbn [calls tick set_heap]; (split; [done|]); (split; [done|]);
        unfold circuitAt; cbn [heap set_heap tick afterNext];
        apply getCircuit_alter; by rewrite lookup_insert_eq.
    + eexists _, _. split; [reflexivity|].
      split; [|split; [intros _ ?; subst now; lia|intros; done]].
      intros _ _. cbn [calls trace tick set_heap]. repeat split.
      unfold circuitAt. cbn [heap tick set_heap].
      unfold CircuitBreaker.getCircuit. by rewrite Hlk.
  - (* HALF_OPEN *)
    rewrite guarded_run. cbn [execute set_heap heap calls nowReads trace].
    destruct (terminal (calls s)) as [v|err] eqn:Ht; eexists _, _;
      (split; [reflexivity|]); (split; [intros [=]|]); (split; [intros [=]|]);
      intros _; cbn [calls tick set_heap]; (split; [done|]); (split; [done|]);
      unfold circuitAt; cbn [heap set_heap tick afterNext];
      by apply getCircuit_alter.
Qed.
End BreakerCalls.

Section BreakerHistory.
Variable self : CircuitBreaker.t.
Variable clock : nat -> Z.
Variable terminal : nat -> outcome.
Variable ctx : MiddlewareContext.


(** Calls made one after the other always return. *)
Lemma history_total n : is_Some (history self clock terminal ctx n).
Proof.
  induction n as [|n [s Hs]]; simpl; [eauto|].
  rewrite Hs.
  destruct (runAlone_total clock terminal (CircuitBreaker.execute self ctx) s)
    as [[o s'] ->].
  simpl. eauto.
Qed.
End BreakerHistory.




(** ** RetryMiddleware on failures that are not retryable *)





(** ** CacheMiddleware *)

Section CacheFacts.
Variable self : Cache.t.
Variable clock : nat -> Z.

End CacheFacts.




(** ** The tracker *)

Section TrackerFacts.
Context {W : Type}.
Variable clock : nat -> Z.
Variable getTracking : string -> list string -> option string.
Variable self : ShipmentTracker W.


End TrackerFacts.





(** ** createTracker *)

Lemma useMiddleware_fold {W : Type} (ms : list (Middleware W)) : forall t,
  middlewares (foldl (fun t m => useMiddleware m t) t ms) = middlewares t ++ ms.
Proof.
  induction ms as [|m ms IH]; intros t; simpl.
  - by rewrite app_nil_r.
  - rewrite IH. simpl. by rewrite <- app_assoc.
Qed.

Lemma use_fold {W : Type} (ps : list Provider) : forall t : ShipmentTracker W,
  middlewares (foldl (fun t p => use p t) t ps) = middlewares t.
Proof.
  induction ps as [|p ps IH]; intros t; simpl; [done|]. by rewrite IH.
Qed.

(** The constructor registers the middlewares in the order given. *)
Lemma newTracker_middlewares {W : Type} ps (ms : list (Middleware W)) :
  middlewares (newTracker ps ms) = ms.
Proof.
  unfold newTracker. by rewrite useMiddleware_fold, use_fold.
Qed.

(** C9.  The tracker that [createTracker] builds runs the middlewares of
    [createTracker_middleware] in their order, which is: the rate limiter
    unless its entry is [false], then retry unless [false], then the circuit
    breaker unless [false], then the cache if its entry is truthy, then the
    logger if its entry is truthy, each with the options of its entry or
    with [{}].  So when the middlewares configuration is omitted, or leaves
    the first three entries undefined or [true] and does not enable cache and
    logger, the list is exactly rate limiter, retry (3 attempts, 1000 ms),
    circuit breaker (threshold 5, 30000 ms). *)
Theorem createTracker_default_pipeline (ps : list Provider)
        (cfg : option MiddlewaresConfig) :
  middlewares (createTracker ps cfg) = map method (createTracker_middleware cfg)
  /\ createTracker_middleware cfg =
       (if isFalse (rateLimiter (default noMiddlewaresConfig cfg)) then []
        else [RateLimiterMiddleware
                (RateLimiter.new
                   (Some (optionsOf RateLimiter.noOptions
                            (rateLimiter (default noMiddlewaresConfig cfg)))))])
       ++ (if isFalse (retry (default noMiddlewaresConfig cfg)) then []
           else [RetryMiddleware
                   (Retry.new
                      (Some (optionsOf Retry.noOptions
                               (retry (default noMiddlewaresConfig cfg)))))])
       ++ (if isFalse (circuitBreaker (default noMiddlewaresConfig cfg)) then []
           else [CircuitBreakerMiddleware
                   (CircuitBreaker.new
                      (Some (optionsOf CircuitBreaker.noOptions
                               (circuitBreaker (default noMiddlewaresConfig cfg)))))])
       ++ (if isTruthy (cache (default noMiddlewaresConfig cfg))
           then [CacheMiddleware
                   (Cache.new
                      (Some (optionsOf Cache.noOptions
                               (cache (default noMiddlewaresConfig cfg)))))]
           else [])
       ++ (if isTruthy (logger (default noMiddlewaresConfig cfg))
           then [LoggerMiddleware
                   (Logger.new
                      (Some (optionsOf Logger.noOptions
                               (logger (default noMiddlewaresConfig cfg)))))]
           else [])
  /\ ((forall c, cfg = Some c ->
         (rateLimiter c = None \/ rateLimiter c = Some On)
         /\ (retry c = None \/ retry c = Some On)
         /\ (circuitBreaker c = None \/ circuitBreaker c = Some On)
         /\ isTruthy (cache c) = false
         /\ isTruthy (logger c) = false) ->
      createTracker_middleware cfg =
        [ RateLimiterMiddleware {| RateLimiter.options := RateLimiter.noOptions |};
          RetryMiddleware {| Retry.maxAttempts := 3; Retry.baseDelayMs := 1000 |};
          CircuitBreakerMiddleware
            {| CircuitBreaker.failureThreshold := 5;
               CircuitBreaker.resetTimeoutMs := 30000 |} ]).
Proof.
  split; [apply newTracker_middlewares|].
  split.
  - unfold createTracker_middleware, enabledByDefault, optIn.
    destruct (default noMiddlewaresConfig cfg) as [ca re rl cb lo]. simpl.
    destruct rl as [[| |?]|], re as [[| |?]|], cb as [[| |?]|],
             ca as [[| |?]|], lo as [[| |?]|]; reflexivity.
  - intros H. destruct cfg as [c|]; [|reflexivity].
    destruct (H c eq_refl) as (Hrl & Hre & Hcb & Hca & Hlo).
    unfold createTracker_middleware. simpl.
    destruct c as [ca re rl cb lo]. simpl in *.
    destruct Hrl as [-> | ->], Hre as [-> | ->], Hcb as [-> | ->];
      destruct ca as [[| |?]|]; try discriminate;
      destruct lo as [[| |?]|]; try discriminate; reflexivity.
Qed.

(** An instance of [createTracker_default_pipeline]: [retry: true] and
    [cache: false] leave the default pipeline. *)
Lemma createTracker_default_pipeline_witness :
  createTracker_middleware
    (Some {| cache := Some Off; retry := Some On; rateLimiter := None;
             circuitBreaker := None; logger := None |}) =
  [ RateLimiterMiddleware {| RateLimiter.options := RateLimiter.noOptions |};
    RetryMiddleware {| Retry.maxAttempts := 3; Retry.baseDelayMs := 1000 |};
    CircuitBreakerMiddleware
      {| CircuitBreaker.failureThreshold := 5;
         CircuitBreaker.resetTimeoutMs := 30000 |} ].
Proof.
  refine (proj2 (proj2 (createTracker_default_pipeline [] _)) _).
  intros c [= <-]. simpl. repeat split; auto.
Defined.

(** ** BaseProvider: the token lifecycle *)

(** While a refresh is in flight and no valid token is cached, every call
    of [getToken] joins the promise in flight. *)
Lemma enterAll_joined p nows : forall st,
  BaseProvider.tokenPromise st = Some p ->
  (forall now, now ∈ nows -> BaseProvider.cachedToken now st = None) ->
  BaseProvider.enterAll nows st
  = (replicate (length nows) (BaseProvider.Joined p), st).
Proof.
  induction nows as [|now rest IH]; intros st Hp Hnone; simpl; [done|].
  unfold BaseProvider.getToken_enter.
  rewrite (Hnone now) by set_solver. rewrite Hp.
  rewrite IH; [done|done|]. intros now' Hin. apply Hnone. set_solver.
Qed.

(** C4.  A burst of [getToken] calls on an instance with no refresh in
    flight and no valid cached token, all entered before the token endpoint
    replies: the first call starts the one refresh (one request to the token
    endpoint) and every other call joins its promise; when the reply arrives
    every caller receives the same result, the token or the failure; the
    [finally] of the first call clears the handle either way, so that a later
    call that finds no valid token starts a new refresh. *)
Theorem single_flight_refresh (st : BaseProvider.State) (now0 : Z) (nows : list Z)
        (reply : Settled BaseProvider.OAuthTokenResponse) (replyTime : Z) :
  BaseProvider.tokenPromise st = None ->
  (forall now, now ∈ now0 :: nows -> BaseProvider.cachedToken now st = None) ->
  exists st1,
    BaseProvider.enterAll (now0 :: nows) st
    = (BaseProvider.Started (BaseProvider.tokenRequests st)
         :: replicate (length nows) (BaseProvider.Joined (BaseProvider.tokenRequests st)),
       st1)
    /\ BaseProvider.tokenRequests st1 = S (BaseProvider.tokenRequests st)
    /\ BaseProvider.tokenPromise st1 = Some (BaseProvider.tokenRequests st)
    /\ (forall e, e ∈ (BaseProvider.enterAll (now0 :: nows) st).1 ->
          BaseProvider.received e
            (BaseProvider.getToken_finally
               (BaseProvider.refreshToken_settle (BaseProvider.tokenRequests st)
                  reply replyTime st1))
          = Some (refreshResult reply))
    /\ BaseProvider.tokenRequests
         (BaseProvider.getToken_finally
            (BaseProvider.refreshToken_settle (BaseProvider.tokenRequests st)
               reply replyTime st1))
       = S (BaseProvider.tokenRequests st)
    /\ BaseProvider.tokenPromise
         (BaseProvider.getToken_finally
            (BaseProvider.refreshToken_settle (BaseProvider.tokenRequests st)
               reply replyTime st1)) = None
    /\ (forall err, reply = Rejected err ->
          BaseProvider.tokenCache
            (BaseProvider.getToken_finally
               (BaseProvider.refreshToken_settle (BaseProvider.tokenRequests st)
                  reply replyTime st1))
          = BaseProvider.tokenCache st)
    /\ (forall later,
          BaseProvider.cachedToken later
            (BaseProvider.getToken_finally
               (BaseProvider.refreshToken_settle (BaseProvider.tokenRequests st)
                  reply replyTime st1)) = None ->
          exists st3,
            BaseProvider.getToken_enter later
              (BaseProvider.getToken_finally
                 (BaseProvider.refreshToken_settle (BaseProvider.tokenRequests st)
                    reply replyTime st1))
            = (BaseProvider.Started (S (BaseProvider.tokenRequests st)), st3)
            /\ BaseProvider.tokenRequests st3 = S (S (BaseProvider.tokenRequests st))).
Proof.
  intros Hidle Hnone.
  set (p := BaseProvider.tokenRequests st).
  set (st1 := {| BaseProvider.tokenCache := BaseProvider.tokenCache st;
                 BaseProvider.tokenPromise := Some p;
                 BaseProvider.settled := BaseProvider.settled st;
                 BaseProvider.tokenRequests := S p |}).
  assert (Henter : BaseProvider.enterAll (now0 :: nows) st
                   = (BaseProvider.Started p
                        :: replicate (length nows) (BaseProvider.Joined p), st1)).
  { cbn [BaseProvider.enterAll]. unfold BaseProvider.getToken_enter.
    rewrite (Hnone now0) by set_solver. rewrite Hidle. fold p st1.
    rewrite (enterAll_joined p nows st1); [done|done|].
    intros now Hin. unfold BaseProvider.cachedToken. simpl.
    apply (Hnone now). set_solver. }
  exists st1. rewrite Henter. cbn [fst].
  split; [done|]. split; [done|]. split; [done|].
  split.
  { intros e He.
    assert (He' : e = BaseProvider.Started p \/ e = BaseProvider.Joined p).
    { apply elem_of_cons in He as [->|He]; [by left|right].
      by apply elem_of_replicate in He as [-> _]. }
    destruct reply as [data|err];
      destruct He' as [-> | ->]; simpl; by rewrite lookup_insert_eq. }
  split; [by destruct reply|]. split; [by destruct reply|].
  split; [by intros err ->|].
  intros later Hlater. unfold BaseProvider.getToken_enter. rewrite Hlater.
  destruct reply; simpl; eexists; split; reflexivity.
Qed.

(** An instance of [single_flight_refresh]: three calls on a new instance,
    answered with a token. *)
Lemma single_flight_refresh_witness :
  exists st1,
    BaseProvider.enterAll [0; 1; 2] BaseProvider.initial
    = ([BaseProvider.Started 0; BaseProvider.Joined 0; BaseProvider.Joined 0], st1)
    /\ BaseProvider.tokenRequests st1 = 1%nat
    /\ BaseProvider.received (BaseProvider.Joined 0)
         (BaseProvider.getToken_finally
            (BaseProvider.refreshToken_settle 0
               (Fulfilled {| BaseProvider.access_token := "tok";
                             BaseProvider.expires_in := 3600 |}) 5 st1))
       = Some (Fulfilled "tok").
Proof.
  destruct (single_flight_refresh BaseProvider.initial 0 [1; 2]
              (Fulfilled {| BaseProvider.access_token := "tok";
                            BaseProvider.expires_in := 3600 |}) 5)
    as (st1 & Henter & Hreq & _ & Hrecv & _); [reflexivity|by intros|].
  exists st1. split; [exact Henter|]. split; [exact Hreq|].
  apply Hrecv. rewrite Henter. simpl. set_solver.
Defined.

(** ** BaseProvider: re-authentication on 401 *)

(** C6, where it fails as stated: a valid cached token, and a data endpoint
    that answers 401 to both tokens.  [track] throws a ProviderError that
    wraps the second 401; it is not an AuthenticationError. *)
Lemma second_401_is_not_authentication_error :
  exists err w',
    BaseProvider.track "UPS" "ups" (fun _ => 1000)
      (fun _ => Fulfilled {| BaseProvider.access_token := "fresh";
                             BaseProvider.expires_in := 3600 |})
      (fun _ _ => Rejected (httpError 401))
      None (fun _ => None) (fun _ => Fulfilled ([], None))
      "1Z999"
      {| BaseProvider.instance :=
           {| BaseProvider.tokenCache :=
                Some {| BaseProvider.token := "stale"; BaseProvider.expiresAt := 5000 |};
              BaseProvider.tokenPromise := None;
              BaseProvider.settled := ∅;
              BaseProvider.tokenRequests := 0%nat |};
         BaseProvider.nowReads := 0%nat;
         BaseProvider.dataCalls := [] |}
    = Some (Rejected err, w')
    /\ BaseProvider.dataCalls w' = ["stale"; "fresh"]
    /\ err = ProviderError (error_message (httpError 401)) "UPS" "1Z999" None
               (Some (httpError 401))
    /\ instanceof_AuthenticationError err = false.
Proof.
  eexists _, _. split; [vm_compute; reflexivity|].
  split; [reflexivity|]. split; reflexivity.
Qed.

(** C6, amended.  A data call made with the valid cached token fails with
    HTTP 401, no refresh is in flight, and the token endpoint answers the
    refresh with a new token: the cached token is dropped, one token request
    is made, and the data call is made once more, with the new token; the
    result of that second call is the result of [fetchWithAuthRetry].  If it
    is a 401 again it is thrown as it is, with no third data call and no
    second token request, and [track] throws it wrapped in a ProviderError
    whose cause it is, which is not an AuthenticationError. *)
Theorem reauth_retries_once (name code : string) (clock : nat -> Z)
        (tokenEndpoint : nat -> Settled BaseProvider.OAuthTokenResponse)
        (dataEndpoint : nat -> string -> Settled string)
        (checkForError : string -> option Thrown)
        (parseResponse : string -> Settled (list TrackingEvent * option Z))
        (trackingNumber : string) (w : BaseProvider.World)
        (tc : BaseProvider.TokenCache) (data : BaseProvider.OAuthTokenResponse)
        (err1 : Thrown) :
  BaseProvider.tokenCache (BaseProvider.instance w) = Some tc ->
  clock (BaseProvider.nowReads w) < BaseProvider.expiresAt tc ->
  BaseProvider.tokenPromise (BaseProvider.instance w) = None ->
  dataEndpoint (length (BaseProvider.dataCalls w)) (BaseProvider.token tc)
    = Rejected err1 ->
  response_status err1 = Some 401 ->
  tokenEndpoint (BaseProvider.tokenRequests (BaseProvider.instance w))
    = Fulfilled data ->
  exists w1 w2,
    BaseProvider.getToken clock tokenEndpoint w
      = Some (Fulfilled (BaseProvider.token tc), w1)
    /\ BaseProvider.dataCalls w1 = BaseProvider.dataCalls w
    /\ BaseProvider.fetchWithAuthRetry clock tokenEndpoint dataEndpoint
         (BaseProvider.token tc) w1
       = Some (dataEndpoint (S (length (BaseProvider.dataCalls w)))
                 (BaseProvider.access_token data), w2)
    /\ BaseProvider.dataCalls w2
       = BaseProvider.dataCalls w
         ++ [BaseProvider.token tc; BaseProvider.access_token data]
    /\ BaseProvider.tokenRequests (BaseProvider.instance w2)
       = S (BaseProvider.tokenRequests (BaseProvider.instance w))
    /\ (BaseProvider.token <$> BaseProvider.tokenCache (BaseProvider.instance w2))
       = Some (BaseProvider.access_token data)
    /\ BaseProvider.tokenPromise (BaseProvider.instance w2) = None
    /\ (forall err2,
          dataEndpoint (S (length (BaseProvider.dataCalls w)))
            (BaseProvider.access_token data) = Rejected err2 ->
          response_status err2 = Some 401 ->
          BaseProvider.track name code clock tokenEndpoint dataEndpoint None
            checkForError parseResponse trackingNumber w
          = Some (Rejected (BaseProvider.wrap name trackingNumber err2), w2)
          /\ (exists message payload,
                BaseProvider.wrap name trackingNumber err2
                = ProviderError message name trackingNumber payload (Some err2))
          /\ instanceof_AuthenticationError
               (BaseProvider.wrap name trackingNumber err2) = false).
Proof.
  intros Hcache Hvalid Hidle Hfirst H401 Hreply.
  destruct w as [st reads calls0]. simpl in *.
  destruct st as [cache promise settled requests]. simpl in *. subst cache promise.
  apply Z.ltb_lt in Hvalid.
  assert (Hget : BaseProvider.getToken clock tokenEndpoint
                   {| BaseProvider.instance :=
                        {| BaseProvider.tokenCache := Some tc;
                           BaseProvider.tokenPromise := None;
                           BaseProvider.settled := settled;
                           BaseProvider.tokenRequests := requests |};
                      BaseProvider.nowReads := reads;
                      BaseProvider.dataCalls := calls0 |}
                 = Some (Fulfilled (BaseProvider.token tc),
                         {| BaseProvider.instance :=
                              {| BaseProvider.tokenCache := Some tc;
                                 BaseProvider.tokenPromise := None;
                                 BaseProvider.settled := settled;
                                 BaseProvider.tokenRequests := requests |};
                            BaseProvider.nowReads := S reads;
                            BaseProvider.dataCalls := calls0 |})).
  { unfold BaseProvider.getToken, BaseProvider.readClock,
      BaseProvider.getToken_enter, BaseProvider.cachedToken. simpl.
    by rewrite Hvalid. }
  assert (Hfetch : BaseProvider.fetchWithAuthRetry clock tokenEndpoint dataEndpoint
                     (BaseProvider.token tc)
                     {| BaseProvider.instance :=
                          {| BaseProvider.tokenCache := Some tc;
                             BaseProvider.tokenPromise := None;
                             BaseProvider.settled := settled;
                             BaseProvider.tokenRequests := requests |};
                        BaseProvider.nowReads := S reads;
                        BaseProvider.dataCalls := calls0 |}
                   = Some (dataEndpoint (S (length calls0)) (BaseProvider.access_token data),
                           {| BaseProvider.instance :=
                                {| BaseProvider.tokenCache :=
                                     Some {| BaseProvider.token := BaseProvider.access_token data;
                                             BaseProvider.expiresAt :=
                                               clock (S reads)
                                               + BaseProvider.expires_in data * 1000
                                               - BaseProvider.TOKEN_BUFFER_MS |};
                                   BaseProvider.tokenPromise := None;
                                   BaseProvider.settled :=
                                     <[requests := Fulfilled (BaseProvider.access_token data)]>
                                       settled;
                                   BaseProvider.tokenRequests := S requests |};
                              BaseProvider.nowReads := S (S reads);
                              BaseProvider.dataCalls :=
                                (calls0 ++ [BaseProvider.token tc])
                                ++ [BaseProvider.access_token data] |})).
  { unfold BaseProvider.fetchWithAuthRetry, BaseProvider.fetchTrackingData.
    cbn [BaseProvider.dataCalls BaseProvider.instance BaseProvider.nowReads].
    rewrite Hfirst. rewrite decide_True by done.
    unfold BaseProvider.getToken, BaseProvider.with_instance,
      BaseProvider.invalidate, BaseProvider.getToken_enter,
      BaseProvider.cachedToken, BaseProvider.readClock.
    cbn [BaseProvider.tokenCache BaseProvider.tokenPromise BaseProvider.instance
         BaseProvider.tokenRequests BaseProvider.settled BaseProvider.nowReads
         BaseProvider.dataCalls].
    rewrite Hreply.
    cbn [BaseProvider.refreshToken_settle BaseProvider.getToken_finally
         BaseProvider.tokenCache BaseProvider.tokenPromise BaseProvider.instance
         BaseProvider.tokenRequests BaseProvider.settled BaseProvider.nowReads
         BaseProvider.dataCalls].
    rewrite lookup_insert_eq.
    cbn [BaseProvider.dataCalls BaseProvider.instance BaseProvider.nowReads].
    rewrite length_app. simpl. do 3 f_equal. lia. }
  eexists _, _. split; [exact Hget|]. split; [done|].
  split; [exact Hfetch|].
  split; [simpl; by rewrite <- app_assoc|].
  split; [done|]. split; [done|]. split; [done|].
  intros err2 Hsecond H401'.
  split.
  - unfold BaseProvider.track, BaseProvider.attempt.
    rewrite Hget, Hfetch, Hsecond. reflexivity.
  - unfold BaseProvider.wrap.
    destruct err2 as [[r|] m| | | | |]; try discriminate. simpl.
    destruct (resp_data r); split; eauto.
Qed.

(** An instance of [reauth_retries_once]: a stale token, then a fresh one
    that the data endpoint accepts. *)
Lemma reauth_retries_once_witness :
  exists w1 w2,
    BaseProvider.fetchWithAuthRetry (fun _ => 1000)
      (fun _ => Fulfilled {| BaseProvider.access_token := "fresh";
                             BaseProvider.expires_in := 3600 |})
      (fun _ tok => if decide (tok = "fresh") then Fulfilled "{}"
                    else Rejected (httpError 401))
      "stale" w1
    = Some (Fulfilled "{}", w2)
    /\ BaseProvider.dataCalls w2 = ["stale"; "fresh"]
    /\ BaseProvider.tokenRequests (BaseProvider.instance w2) = 1%nat.
Proof.
  destruct (reauth_retries_once "UPS" "ups" (fun _ => 1000)
              (fun _ => Fulfilled {| BaseProvider.access_token := "fresh";
                                     BaseProvider.expires_in := 3600 |})
              (fun _ tok => if decide (tok = "fresh") then Fulfilled "{}"
                            else Rejected (httpError 401))
              (fun _ => None) (fun _ => Fulfilled ([], None)) "1Z999"
              {| BaseProvider.instance :=
                   {| BaseProvider.tokenCache :=
                        Some {| BaseProvider.token := "stale";
                                BaseProvider.expiresAt := 5000 |};
                      BaseProvider.tokenPromise := None;
                      BaseProvider.settled := ∅;
                      BaseProvider.tokenRequests := 0%nat |};
                 BaseProvider.nowReads := 0%nat;
                 BaseProvider.dataCalls := [] |}
              {| BaseProvider.token := "stale"; BaseProvider.expiresAt := 5000 |}
              {| BaseProvider.access_token := "fresh"; BaseProvider.expires_in := 3600 |}
              (httpError 401))
    as (w1 & w2 & _ & _ & Hfetch & Hcalls & Hreq & _);
    [reflexivity|reflexivity|reflexivity|reflexivity|reflexivity|reflexivity|].
  exists w1, w2. split; [exact Hfetch|]. split; [exact Hcalls|exact Hreq].
Defined.

(** ** The chain engine and the onion *)

Section ChainOnion.
Context {W : Type}.
Variable clock : nat -> Z.
Variable terminal : nat -> outcome.

Lemma alikeR_visible (r r' : option (outcome * Run W)) :
  alikeR r r' -> visible r = visible r'.
Proof.
  destruct r as [[o s]|], r' as [[o' s']|]; simpl; try done.
  intros (-> & Hh & Hn & Hc & Ht). by rewrite Hh, Hn, Hc, Ht.
Qed.

(** A body that does not await [next()] runs alike under any two
    continuations. *)
Lemma runMw_no_next h h' (p : Prog W) : forall s s',
  nextAtMost 0 p -> alike s s' ->
  alikeR (runMw clock h p s) (runMw clock h' p s').
Proof.
  induction p as [o|k IH|k IH|ms k IH|k IH|w k IH|msg k IH];
    intros s s' Hp (Hh & Hn & Hc & Ht); simpl in *.
  - done.
  - done.
  - rewrite Hn. apply IH; [done|]. by repeat split; simpl; try congruence.
  - apply IH; [done|]. by repeat split; simpl; try congruence.
  - rewrite Hh. apply IH; [done|]. by repeat split.
  - apply IH; [done|]. by repeat split.
  - apply IH; [done|]. by repeat split; simpl; try congruence.
Qed.

(** A body that awaits [next()] at most once runs alike under two
    continuations that agree where [index] is [i]. *)
Lemma runMw_once h h' (i : nat) (p : Prog W) : forall s s',
  nextAtMost 1 p ->
  (forall s1 s1', alike s1 s1' -> index s1 = i -> alikeR (h s1) (h' s1')) ->
  alike s s' -> index s = i ->
  alikeR (runMw clock h p s) (runMw clock h' p s').
Proof.
  induction p as [o|k IH|k IH|ms k IH|k IH|w k IH|msg k IH];
    intros s s' Hp Hagree Hs Hi; simpl in *.
  - done.
  - specialize (Hagree s s' Hs Hi).
    destruct (h s) as [[o1 s1]|], (h' s') as [[o1' s1']|]; simpl in Hagree; try done.
    destruct Hagree as [-> Hs1]. by apply runMw_no_next.
  - destruct Hs as (Hh & Hn & Hc & Ht). rewrite Hn.
    apply IH; [done|done| |done]. by repeat split; simpl; try congruence.
  - destruct Hs as (Hh & Hn & Hc & Ht).
    apply IH; [done|done| |done]. by repeat split; simpl; try congruence.
  - destruct Hs as (Hh & Hn & Hc & Ht). rewrite Hh.
    apply IH; [done|done| |done]. by repeat split.
  - destruct Hs as (Hh & Hn & Hc & Ht).
    apply IH; [done|done| |done]. by repeat split.
  - destruct Hs as (Hh & Hn & Hc & Ht).
    apply IH; [done|done| |done]. by repeat split; simpl; try congruence.
Qed.

(** Any body runs alike under two continuations that agree where [index]
    is [i] and leave it there. *)
Lemma runMw_settled h h' (i : nat) (p : Prog W) : forall s s',
  (forall s1 s1', alike s1 s1' -> index s1 = i ->
     alikeR (h s1) (h' s1')
     /\ forall o s2, h s1 = Some (o, s2) -> index s2 = i) ->
  alike s s' -> index s = i ->
  alikeR (runMw clock h p s) (runMw clock h' p s').
Proof.
  induction p as [o|k IH|k IH|ms k IH|k IH|w k IH|msg k IH];
    intros s s' Hagree Hs Hi; simpl in *.
  - done.
  - destruct (Hagree s s' Hs Hi) as [Hr Hkeep].
    destruct (h s) as [[o1 s1]|], (h' s') as [[o1' s1']|]; simpl in Hr; try done.
    destruct Hr as [-> Hs1]. apply IH; [done|done|]. by apply (Hkeep o1').
  - destruct Hs as (Hh & Hn & Hc & Ht). rewrite Hn.
    apply IH; [done| |done]. by repeat split; simpl; try congruence.
  - destruct Hs as (Hh & Hn & Hc & Ht).
    apply IH; [done| |done]. by repeat split; simpl; try congruence.
  - destruct Hs as (Hh & Hn & Hc & Ht). rewrite Hh.
    apply IH; [done| |done]. by repeat split.
  - destruct Hs as (Hh & Hn & Hc & Ht).
    apply IH; [done| |done]. by repeat split.
  - destruct Hs as (Hh & Hn & Hc & Ht).
    apply IH; [done| |done]. by repeat split; simpl; try congruence.
Qed.

Variable middlewares : list (Middleware W).
Variable ctx : MiddlewareContext.
Hypothesis inner_once : forall i middleware,
  middlewares !! i = Some middleware ->
  (S i < length middlewares)%nat ->
  nextAtMost 1 (middleware ctx).

(** From position [i] on, [next] is the onion of the middlewares that
    follow. *)
Lemma next_is_onion (k : nat) : forall i fuel s s',
  (i + k = length middlewares)%nat -> (k <= fuel)%nat ->
  alike s s' -> index s = i ->
  alikeR (next clock terminal middlewares ctx fuel s)
         (onion clock terminal (drop i middlewares) ctx s').
Proof.
  induction k as [|k IH]; intros i fuel s s' Hik Hfuel Hs Hi.
  - rewrite drop_ge by lia. simpl.
    assert (Hleb : (length middlewares <=? index s)%nat = true)
      by (apply Nat.leb_le; lia).
    destruct fuel; cbn [next]; rewrite Hleb; simpl;
      destruct Hs as (Hh & Hn & Hc & Ht); rewrite Hc;
      (split; [done|]); repeat split; simpl; congruence.
  - destruct fuel as [|fuel]; [lia|]. cbn [next].
    assert (Hleb : (length middlewares <=? index s)%nat = false)
      by (apply Nat.leb_gt; lia).
    rewrite Hleb, Hi.
    destruct (middlewares !! i) as [mw|] eqn:Hmw;
      [|apply lookup_ge_None in Hmw; lia].
    rewrite (drop_S _ _ _ Hmw). cbn [onion].
    assert (Hs1 : alike (set_index (S i) s) s')
      by (destruct Hs as (? & ? & ? & ?); by repeat split).
    destruct k as [|k].
    + (* the last middleware: [next] is the terminal call, every time *)
      apply (runMw_settled _ _ (S i)); [|done|done].
      intros s1 s1' Hal Hidx.
      assert (Hleb1 : (length middlewares <=? index s1)%nat = true)
        by (apply Nat.leb_le; lia).
      rewrite drop_ge by lia.
      split.
      * destruct fuel; cbn [next onion]; rewrite Hleb1; simpl;
          destruct Hal as (Hh & Hn & Hc & Ht); rewrite Hc;
          (split; [done|]); repeat split; simpl; congruence.
      * intros o s2 H. destruct fuel; cbn [next] in H; rewrite Hleb1 in H;
          injection H as _ <-; done.
    + apply (runMw_once _ _ (S i)); [|  |done|done].
      * apply (inner_once i mw Hmw). lia.
      * intros s1 s1' Hal Hidx. apply IH; [lia|lia|done|done].
Qed.
End ChainOnion.

(** The chain call and the onion, when the inner middlewares await
    [next()] at most once. *)
Lemma chain_visible_onion {W : Type} (clock : nat -> Z)
        (terminal : nat -> outcome) (middlewares : list (Middleware W))
        (ctx : MiddlewareContext) (s : Run W) :
  (forall i middleware,
     middlewares !! i = Some middleware ->
     (S i < length middlewares)%nat ->
     nextAtMost 1 (middleware ctx)) ->
  visible (executeMiddlewareChain clock terminal middlewares ctx s)
  = visible (onion clock terminal middlewares ctx s).
Proof.
  intros Hinner. apply alikeR_visible. unfold executeMiddlewareChain.
  destruct middlewares as [|mw rest] eqn:E.
  - simpl. by repeat split.
  - rewrite <- E in *. replace (length middlewares =? 0)%nat with false
      by (rewrite E; done).
    rewrite <- (drop_0 middlewares) at 3.
    apply (next_is_onion clock terminal middlewares ctx Hinner (length middlewares));
      [lia|lia| |done].
    by repeat split.
Qed.

(** The chain call is the onion of section 4.6 whenever every middleware
    but the innermost awaits [next()] at most once: the two leave the same
    result, instance state, clock reads, terminal invocations and trace. *)
Theorem chain_is_onion_when_inner_next_once {W : Type} (clock : nat -> Z)
        (terminal : nat -> outcome) (middlewares : list (Middleware W))
        (ctx : MiddlewareContext) (s : Run W) :
  (forall i middleware,
     middlewares !! i = Some middleware ->
     (S i < length middlewares)%nat ->
     nextAtMost 1 (middleware ctx)) ->
  visible (executeMiddlewareChain clock terminal middlewares ctx s)
  = visible (onion clock terminal middlewares ctx s).
Proof. apply chain_visible_onion. Qed.

(** An instance of [chain_is_onion_when_inner_next_once]: a marking
    middleware around RetryMiddleware, the terminal call failing twice. *)
Lemma chain_is_onion_when_inner_next_once_witness :
  visible (executeMiddlewareChain (fun _ => 0) (failsFirst 2)
             [marking "A"; Retry.execute (Retry.new None)] sampleCtx (start ()))
  = visible (onion (fun _ => 0) (failsFirst 2)
               [marking "A"; Retry.execute (Retry.new None)] sampleCtx (start ())).
Proof.
  apply chain_is_onion_when_inner_next_once.
  intros [|[|i]] mw Hmw Hlen; simpl in *; try lia.
  injection Hmw as <-. simpl. intros [v|err]; simpl; done.
Defined.

Lemma within_nextAtMost {A B : Type} (get : B -> A) (set : A -> B -> B)
      (p : Prog A) : forall n,
  nextAtMost n p -> nextAtMost n (within get set p).
Proof.
  induction p as [o|k IH|k IH|ms k IH|k IH|w k IH|msg k IH]; intros n Hp;
    simpl in *; auto.
  destruct n; [done|]. intros settled. by apply IH.
Qed.

(** Of the five middlewares, only RetryMiddleware awaits [next()] more than
    once. *)
Lemma method_nextAtMost m ctx :
  (forall self, m <> RetryMiddleware self) -> nextAtMost 1 (method m ctx).
Proof.
  intros Hm. destruct m as [self|self|self|self|self]; cbn [method].
  - simpl. intros settled. done.
  - by destruct (Hm self).
  - apply within_nextAtMost. unfold CircuitBreaker.execute. simpl.
    intros circuits.
    destruct (CircuitBreaker.getCircuit circuits (ctx_courierCode ctx)) as [c m1].
    simpl.
    destruct (CircuitBreaker.state c); simpl.
    + intros [v|err]; simpl; done.
    + intros now.
      destruct (CircuitBreaker.resetTimeoutMs self
                <=? now - CircuitBreaker.lastFailureTime c); simpl; [|done].
      intros _ [v|err]; simpl; done.
    + intros [v|err]; simpl; done.
  - apply within_nextAtMost. unfold Cache.execute, Cache.adapter_get. simpl.
    intros cache.
    destruct (cache !! Cache.getCacheKey ctx) as [entry|]; simpl.
    + intros now. destruct (Cache.get cache (Cache.getCacheKey ctx) now) as [[hit|] c'];
        simpl; [done|]. intros [v|err]; simpl; done.
    + intros [v|err]; simpl; done.
  - simpl. intros start [v|err]; simpl; done.
Qed.

(** A pipeline of the five middlewares has the onion semantics whenever no
    RetryMiddleware stands in front of another middleware. *)
Theorem builtin_chain_is_onion_when_retry_innermost (clock : nat -> Z)
        (terminal : nat -> outcome) (pipeline : list MiddlewareInstance)
        (ctx : MiddlewareContext) (s : Run Heap) :
  (forall i self,
     pipeline !! i = Some (RetryMiddleware self) -> S i = length pipeline) ->
  visible (executeMiddlewareChain clock terminal (map method pipeline) ctx s)
  = visible (onion clock terminal (map method pipeline) ctx s).
Proof.
  intros Hretry. apply chain_visible_onion.
  intros i mw Hmw Hlen.
  change (map method pipeline) with (method <$> pipeline) in *.
  rewrite length_fmap in Hlen. rewrite list_lookup_fmap in Hmw.
  destruct (pipeline !! i) as [m|] eqn:Hm; [|done].
  injection Hmw as <-. apply method_nextAtMost.
  intros self ->. specialize (Hretry i self Hm). lia.
Qed.

(** An instance of [builtin_chain_is_onion_when_retry_innermost]: the
    pipeline of [createTracker] with the circuit breaker switched off, in
    which RetryMiddleware is innermost. *)
Lemma builtin_chain_is_onion_when_retry_innermost_witness :
  visible (executeMiddlewareChain (fun _ => 0) (failsFirst 1)
             (map method
                (createTracker_middleware
                   (Some {| cache := None; retry := None; rateLimiter := None;
                            circuitBreaker := Some Off; logger := None |})))
             sampleCtx (start emptyHeap))
  = visible (onion (fun _ => 0) (failsFirst 1)
               (map method
                  (createTracker_middleware
                     (Some {| cache := None; retry := None; rateLimiter := None;
                              circuitBreaker := Some Off; logger := None |})))
               sampleCtx (start emptyHeap)).
Proof.
  apply builtin_chain_is_onion_when_retry_innermost.
  intros [|[|i]] self H; simpl in *; try discriminate; reflexivity.
Defined.

(** ** RetryMiddleware: the ways an execution ends *)

(** With [maxAttempts] at 0 or below the loop body never runs: [next()] is
    not invoked and the value thrown is [undefined]. *)
Theorem retry_without_attempts_throws_undefined {W : Type} (self : Retry.t)
        (clock : nat -> Z) (terminal : nat -> outcome)
        (ctx : MiddlewareContext) (s : Run W) :
  Retry.maxAttempts self <= 0 ->
  runAlone clock terminal (Retry.execute self ctx) s
  = Some (Rejected UndefinedValue, s).
Proof.
  intros H. unfold Retry.execute.
  replace (Z.to_nat (Retry.maxAttempts self)) with 0%nat by lia.
  reflexivity.
Qed.

Lemma retry_without_attempts_throws_undefined_witness :
  runAlone (fun _ => 0) (fun _ => Fulfilled sampleResult)
    (Retry.execute {| Retry.maxAttempts := 0; Retry.baseDelayMs := 1000 |} sampleCtx)
    (start ())
  = Some (Rejected UndefinedValue, start ()).
Proof.
  apply retry_without_attempts_throws_undefined. simpl. lia.
Defined.

(** The number of invocations that an execution makes is the position of
    the first invocation that does not fail with a retryable error, capped
    by [maxAttempts]. *)
Lemma retry_stops_at {W : Type} (self : Retry.t) (clock : nat -> Z)
      (terminal : nat -> outcome) (ctx : MiddlewareContext) (s : Run W) (k : nat) :
  Z.of_nat k < Retry.maxAttempts self ->
  (forall j, (j < k)%nat ->
     exists err, terminal (calls s + j)%nat = Rejected err
                 /\ Retry.isRetryable err = true) ->
  (forall err, terminal (calls s + k)%nat = Rejected err ->
     Retry.isRetryable err = false \/ Z.of_nat k = Retry.maxAttempts self - 1) ->
  exists s',
    runAlone clock terminal (Retry.execute self ctx) s
    = Some (terminal (calls s + k)%nat, s')
    /\ calls s' = (calls s + S k)%nat
    /\ heap s' = heap s
    /\ trace s' = trace s ++ attemptsTrace (Retry.baseDelayMs self) 0 (S k).
Proof.
  intros Hk Hfail Hend.
  destruct (loop_spec clock terminal self (Z.to_nat (Retry.maxAttempts self))
              0 UndefinedValue s)
    as (n & o & s' & Hrun & Hcalls & Hle & Hheap & Htrace & Hzero & Hmid & Hlast & Hwhy).
  { f_equal. lia. }
  assert (Hn : n = S k).
  { destruct (lt_eq_lt_dec n (S k)) as [[Hlt|Heq]|Hgt]; [|done|].
    - destruct n as [|j]; [destruct (Hzero eq_refl); lia|].
      destruct (Hfail j ltac:(lia)) as (err & Herr & Hretry).
      pose proof (Hlast j eq_refl) as Ho. rewrite Herr in Ho.
      destruct (Hwhy j err eq_refl (eq_sym Ho)) as [H|H]; [congruence|lia].
    - destruct (Hmid k Hgt) as (err & Herr & Hretry & Hne).
      destruct (Hend err Herr) as [H|H]; [congruence|lia]. }
  subst n. exists s'. unfold Retry.execute. rewrite Hrun, (Hlast k eq_refl). done.
Qed.

(** When the first [k] invocations fail with retryable errors, [k] below
    [maxAttempts], and the next one succeeds, the execution returns that
    result after [k + 1] invocations, with the [k] timers in between. *)
Theorem retry_recovers_after_transient_failures {W : Type} (self : Retry.t)
        (clock : nat -> Z) (terminal : nat -> outcome)
        (ctx : MiddlewareContext) (s : Run W) (k : nat) (v : TrackingResult) :
  Z.of_nat k < Retry.maxAttempts self ->
  (forall j, (j < k)%nat ->
     exists err, terminal (calls s + j)%nat = Rejected err
                 /\ carriesRetryableStatus err) ->
  terminal (calls s + k)%nat = Fulfilled v ->
  exists s',
    runAlone clock terminal (Retry.execute self ctx) s = Some (Fulfilled v, s')
    /\ calls s' = (calls s + S k)%nat
    /\ trace s' = trace s ++ attemptsTrace (Retry.baseDelayMs self) 0 (S k).
Proof.
  intros Hk Hfail Hok.
  destruct (retry_stops_at self clock terminal ctx s k Hk) as (s' & Hrun & Hc & _ & Ht).
  - intros j Hj. destruct (Hfail j Hj) as (err & Herr & Hst).
    exists err. split; [done|]. by apply isRetryable_spec.
  - intros err Herr. congruence.
  - exists s'. by rewrite Hrun, Hok.
Qed.

(** The test "retries on 429". *)
Lemma retry_recovers_after_transient_failures_witness :
  exists s',
    runAlone (fun _ => 0)
      (fun i => if (i <? 1)%nat then Rejected (httpError 429) else Fulfilled sampleResult)
      (Retry.execute {| Retry.maxAttempts := 3; Retry.baseDelayMs := 1 |} sampleCtx)
      (start ())
    = Some (Fulfilled sampleResult, s')
    /\ calls s' = 2%nat
    /\ trace s' = [EvTerminal; EvSleep 1; EvTerminal].
Proof.
  destruct (retry_recovers_after_transient_failures
              {| Retry.maxAttempts := 3; Retry.baseDelayMs := 1 |} (fun _ => 0)
              (fun i => if (i <? 1)%nat then Rejected (httpError 429)
                        else Fulfilled sampleResult)
              sampleCtx (start ()) 1 sampleResult)
    as (s' & Hrun & Hcalls & Htrace).
  - simpl. lia.
  - intros [|j] Hj; [|lia]. exists (httpError 429). split; [reflexivity|].
    exists 429. split; [reflexivity|]. left. reflexivity.
  - reflexivity.
  - exists s'. split; [exact Hrun|]. split; [exact Hcalls|exact Htrace].
Defined.

(** When every invocation fails with a retryable error, the execution makes
    exactly [maxAttempts] invocations, waits
    [baseDelayMs * (2^(maxAttempts - 1) - 1)] milliseconds in all, and throws
    the error of the last invocation. *)
Theorem retry_gives_up_after_maxAttempts {W : Type} (self : Retry.t)
        (clock : nat -> Z) (terminal : nat -> outcome)
        (ctx : MiddlewareContext) (s : Run W) :
  1 <= Retry.maxAttempts self ->
  (forall j, exists err, terminal j = Rejected err /\ carriesRetryableStatus err) ->
  exists s',
    runAlone clock terminal (Retry.execute self ctx) s
    = Some (terminal (calls s + Z.to_nat (Retry.maxAttempts self) - 1)%nat, s')
    /\ Z.of_nat (calls s') = Z.of_nat (calls s) + Retry.maxAttempts self
    /\ trace s' = trace s ++ attemptsTrace (Retry.baseDelayMs self) 0
                               (Z.to_nat (Retry.maxAttempts self))
    /\ foldr Z.add 0
         (omap id (delaysBefore None
                     (attemptsTrace (Retry.baseDelayMs self) 0
                        (Z.to_nat (Retry.maxAttempts self)))))
       = Retry.baseDelayMs self * (2 ^ (Retry.maxAttempts self - 1) - 1).
Proof.
  intros Hmax Hfail.
  destruct (Z.to_nat (Retry.maxAttempts self)) as [|k] eqn:Hk; [lia|].
  destruct (retry_stops_at self clock terminal ctx s k) as (s' & Hrun & Hc & _ & Ht).
  - lia.
  - intros j _. destruct (Hfail (calls s + j)%nat) as (err & Herr & Hst).
    exists err. split; [done|]. by apply isRetryable_spec.
  - intros err _. right. lia.
  - exists s'. replace (calls s + S k - 1)%nat with (calls s + k)%nat by lia.
    split; [done|]. split; [lia|]. split; [done|].
    rewrite delaysBefore_attemptsTrace. cbn [omap list_omap id].
    replace (Retry.maxAttempts self - 1) with (Z.of_nat k) by lia.
    clear. induction k as [|k IH].
    + simpl. lia.
    + rewrite seq_S, fmap_app, omap_app, foldr_app. simpl.
      rewrite Z.add_0_r.
      assert (Hgen : forall (l : list Z) a, foldr Z.add a l = foldr Z.add 0 l + a).
      { induction l as [|x l IHl]; intros a; simpl; [lia|]. rewrite IHl. lia. }
      rewrite Hgen, IH.
      replace (Z.of_nat (S k)) with (Z.of_nat k + 1) by lia.
      rewrite Z.add_0_l, (Z.pow_add_r 2 (Z.of_nat k) 1) by lia.
      change (2 ^ 1) with 2. ring.
Qed.

(** The test "throws after max attempts exhausted". *)
Lemma retry_gives_up_after_maxAttempts_witness :
  exists s',
    runAlone (fun _ => 0) (fun _ => Rejected (httpError 500))
      (Retry.execute {| Retry.maxAttempts := 2; Retry.baseDelayMs := 1 |} sampleCtx)
      (start ())
    = Some (Rejected (httpError 500), s')
    /\ Z.of_nat (calls s') = 2.
Proof.
  destruct (retry_gives_up_after_maxAttempts
              {| Retry.maxAttempts := 2; Retry.baseDelayMs := 1 |} (fun _ => 0)
              (fun _ => Rejected (httpError 500)) sampleCtx (start ()))
    as (s' & Hrun & Hcalls & _).
  - simpl. lia.
  - intros j. exists (httpError 500). split; [reflexivity|].
    exists 500. split; [reflexivity|]. right. lia.
  - exists s'. split; [exact Hrun|exact Hcalls].
Defined.

(** RetryMiddleware never repeats a call that fails with one of the
    classes of src/errors.ts or with a plain Error: it invokes [next()] once
    and throws what it threw. *)
Theorem retry_never_repeats_tracking_errors {W : Type} (self : Retry.t)
        (clock : nat -> Z) (terminal : nat -> outcome)
        (ctx : MiddlewareContext) (s : Run W) (err : Thrown) :
  1 <= Retry.maxAttempts self ->
  terminal (calls s) = Rejected err ->
  instanceof_AxiosError err = false ->
  exists s',
    runAlone clock terminal (Retry.execute self ctx) s = Some (Rejected err, s')
    /\ calls s' = S (calls s)
    /\ trace s' = trace s ++ [EvTerminal].
Proof.
  intros Hmax Hterm Hclass.
  destruct (retry_stops_at self clock terminal ctx s 0) as (s' & Hrun & Hc & _ & Ht).
  - lia.
  - intros j Hj. lia.
  - intros e He. left. rewrite Nat.add_0_r, Hterm in He. injection He as <-.
    unfold Retry.isRetryable. by rewrite Hclass.
  - exists s'. rewrite Nat.add_0_r, Hterm in Hrun.
    split; [done|]. split; [lia|done].
Qed.

Lemma retry_never_repeats_tracking_errors_witness :
  exists s',
    runAlone (fun _ => 0)
      (fun _ => Rejected (ProviderError "Tracking Information Not Found" "UPS"
                            "1Z999" None None))
      (Retry.execute (Retry.new None) sampleCtx) (start ())
    = Some (Rejected (ProviderError "Tracking Information Not Found" "UPS"
                        "1Z999" None None), s')
    /\ calls s' = 1%nat.
Proof.
  destruct (retry_never_repeats_tracking_errors (Retry.new None) (fun _ => 0)
              (fun _ => Rejected (ProviderError "Tracking Information Not Found"
                                    "UPS" "1Z999" None None))
              sampleCtx (start ())
              (ProviderError "Tracking Information Not Found" "UPS" "1Z999" None None))
    as (s' & Hrun & Hcalls & _); [simpl; lia|reflexivity|reflexivity|].
  exists s'. split; [exact Hrun|exact Hcalls].
Defined.

(** ** LoggerMiddleware *)


(** ** CircuitBreakerMiddleware: the records under any interleaving *)

Lemma allReachable_alter self f code (m : gmap string CircuitBreaker.CircuitInfo) :
  allReachable self m ->
  (forall c, m !! code = Some c -> reachable self (f c)) ->
  allReachable self (alter f code m).
Proof.
  intros Hm Hf k c Hk.
  destruct (decide (code = k)) as [<-|Hne].
  - rewrite lookup_alter_eq in Hk.
    destruct (m !! code) as [c0|] eqn:E; [|done].
    injection Hk as <-. by apply Hf.
  - rewrite lookup_alter_ne in Hk by done. by apply (Hm k).
Qed.

Lemma allReachable_getCircuit self code (m : gmap string CircuitBreaker.CircuitInfo) :
  allReachable self m ->
  allReachable self (CircuitBreaker.getCircuit m code).2.
Proof.
  intros Hm. unfold CircuitBreaker.getCircuit.
  destruct (m !! code) eqn:E; simpl; [done|].
  intros k c Hk. destruct (decide (code = k)) as [<-|Hne].
  - rewrite lookup_insert_eq in Hk. injection Hk as <-. constructor.
  - rewrite lookup_insert_ne in Hk by done. by apply (Hm k).
Qed.

(** Whatever runs while [execute] awaits [next()], other calls of the same
    breaker included, the records of the breaker remain among those the code
    can produce; so no record is ever OPEN or HALF_OPEN with a failure count
    below the threshold. *)
Theorem breaker_records_stay_reachable (self : CircuitBreaker.t) (clock : nat -> Z)
        (h : Run (gmap string CircuitBreaker.CircuitInfo) ->
             option (outcome * Run (gmap string CircuitBreaker.CircuitInfo)))
        (ctx : MiddlewareContext)
        (s s' : Run (gmap string CircuitBreaker.CircuitInfo)) (o : outcome) :
  (forall s1 o1 s2, h s1 = Some (o1, s2) ->
     allReachable self (heap s1) -> allReachable self (heap s2)) ->
  allReachable self (heap s) ->
  runMw clock h (CircuitBreaker.execute self ctx) s = Some (o, s') ->
  allReachable self (heap s')
  /\ forall code c, heap s' !! code = Some c ->
       CircuitBreaker.state c <> CircuitBreaker.CLOSED ->
       CircuitBreaker.failureThreshold self <= CircuitBreaker.failures c.
Proof.
  intros Hh Hs Hrun.
  assert (Hall : allReachable self (heap s')).
  { rewrite breaker_execute_run in Hrun. cbn zeta in Hrun.
    pose proof (allReachable_getCircuit self (ctx_courierCode ctx) (heap s) Hs) as Hm1.
    pose proof (getCircuit_snd_lookup (heap s) (ctx_courierCode ctx)) as Hlk.
    set (c := (CircuitBreaker.getCircuit (heap s) (ctx_courierCode ctx)).1) in *.
    set (m1 := (CircuitBreaker.getCircuit (heap s) (ctx_courierCode ctx)).2) in *.
    assert (Hguard : forall s0 : Run (gmap string CircuitBreaker.CircuitInfo),
              allReachable self (heap s0) ->
              runMw clock h (CircuitBreaker.guarded self (ctx_courierCode ctx)) s0
              = Some (o, s') ->
              allReachable self (heap s')).
    { intros s0 Hs0 Hg. rewrite guarded_run in Hg.
      destruct (h s0) as [[[v|err] s1]|] eqn:E; [| |done];
        injection Hg as <- <-; simpl;
        (apply allReachable_alter; [by apply (Hh s0 _ s1 E)|]);
        intros c0 Hc0;
        [apply reach_success|apply reach_failure];
        exact (Hh s0 _ s1 E Hs0 _ c0 Hc0). }
    destruct (CircuitBreaker.state c) eqn:Hst.
    - apply (Hguard (set_heap m1 s)); [exact Hm1|exact Hrun].
    - destruct (CircuitBreaker.resetTimeoutMs self
                <=? clock (nowReads s) - CircuitBreaker.lastFailureTime c).
      + apply (Hguard (set_heap (alter CircuitBreaker.halfOpen (ctx_courierCode ctx) m1)
                                (tick (set_heap m1 s)))); [|exact Hrun].
        cbn [heap set_heap]. apply allReachable_alter; [exact Hm1|].
        intros c0 Hc0. rewrite Hlk in Hc0. injection Hc0 as <-.
        apply reach_halfOpen; [exact (Hm1 _ _ Hlk)|exact Hst].
      + injection Hrun as <- <-. exact Hm1.
    - apply (Hguard (set_heap m1 s)); [exact Hm1|exact Hrun]. }
  split; [done|].
  intros code c Hc. apply (reachable_counts self c). by apply (Hall code).
Qed.

(** An instance of [breaker_records_stay_reachable]: a call on a new
    breaker whose [next] is a failing terminal call. *)
Lemma breaker_records_stay_reachable_witness :
  exists s',
    runMw (fun _ => 0)
      (fun s0 => Some (execute (fun _ => Rejected (httpError 500)) s0))
      (CircuitBreaker.execute (CircuitBreaker.new None) sampleCtx) (start ∅)
    = Some (Rejected (httpError 500), s')
    /\ allReachable (CircuitBreaker.new None) (heap s').
Proof.
  eexists. split; [vm_compute; reflexivity|].
  refine (proj1 (breaker_records_stay_reachable (CircuitBreaker.new None)
                   (fun _ => 0)
                   (fun s0 => Some (execute (fun _ => Rejected (httpError 500)) s0))
                   sampleCtx (start ∅) _ (Rejected (httpError 500)) _ _ _)).
  - intros s1 o1 s2 [= _ <-] H. exact H.
  - intros code c H. simpl in H. by rewrite lookup_empty in H.
  - vm_compute. reflexivity.
Defined.

(** A call for one courier code leaves the records of every other code as
    they were. *)
Theorem breaker_leaves_other_codes_alone (self : CircuitBreaker.t)
        (clock : nat -> Z) (terminal : nat -> outcome) (ctx : MiddlewareContext)
        (s s' : Run (gmap string CircuitBreaker.CircuitInfo)) (o : outcome)
        (code : string) :
  runAlone clock terminal (CircuitBreaker.execute self ctx) s = Some (o, s') ->
  code <> ctx_courierCode ctx ->
  heap s' !! code = heap s !! code.
Proof.
  intros Hrun Hne. unfold runAlone in Hrun.
  rewrite breaker_execute_run in Hrun. cbn zeta in Hrun.
  assert (Hm1 : (CircuitBreaker.getCircuit (heap s) (ctx_courierCode ctx)).2 !! code
                = heap s !! code).
  { unfold CircuitBreaker.getCircuit.
    destruct (heap s !! ctx_courierCode ctx); simpl; [done|].
    by rewrite lookup_insert_ne. }
  set (m1 := (CircuitBreaker.getCircuit (heap s) (ctx_courierCode ctx)).2) in *.
  assert (Hguard : forall s0 : Run (gmap string CircuitBreaker.CircuitInfo),
            runMw clock (fun s1 => Some (execute terminal s1))
              (CircuitBreaker.guarded self (ctx_courierCode ctx)) s0 = Some (o, s') ->
            heap s' !! code = heap s0 !! code).
  { intros s0 Hg. rewrite guarded_run in Hg. cbn [execute] in Hg.
    destruct (terminal (calls s0)); injection Hg as <- <-; simpl;
      by rewrite lookup_alter_ne. }
  destruct (CircuitBreaker.state _).
  - rewrite (Hguard _ Hrun). done.
  - destruct (_ <=? _).
    + rewrite (Hguard _ Hrun). simpl. by rewrite lookup_alter_ne.
    + injection Hrun as <- <-. done.
  - rewrite (Hguard _ Hrun). done.
Qed.

Lemma breaker_leaves_other_codes_alone_witness :
  exists s',
    runAlone (fun _ => 0) (fun _ => Rejected (httpError 500))
      (CircuitBreaker.execute (CircuitBreaker.new None) sampleCtx)
      (start {[ "ups" := CircuitBreaker.fresh ]})
    = Some (Rejected (httpError 500), s')
    /\ heap s' !! "ups" = Some CircuitBreaker.fresh.
Proof.
  eexists. split; [vm_compute; reflexivity|].
  rewrite (breaker_leaves_other_codes_alone (CircuitBreaker.new None) (fun _ => 0)
             (fun _ => Rejected (httpError 500)) sampleCtx
             (start {[ "ups" := CircuitBreaker.fresh ]}) _
             (Rejected (httpError 500)) "ups").
  - reflexivity.
  - vm_compute. reflexivity.
  - discriminate.
Defined.

(** ** CircuitBreakerMiddleware: tripping *)

Lemma breaker_trip_invariant (self : CircuitBreaker.t) (clock : nat -> Z)
      (terminal : nat -> outcome) (ctx : MiddlewareContext) :
  1 <= CircuitBreaker.failureThreshold self ->
  (forall i, exists err, terminal i = Rejected err) ->
  (forall i j, clock i - clock j < CircuitBreaker.resetTimeoutMs self) ->
  forall n s,
    history self clock terminal ctx n = Some s ->
    Z.of_nat (calls s) = Z.min (Z.of_nat n) (CircuitBreaker.failureThreshold self)
    /\ CircuitBreaker.failures (circuitAt (ctx_courierCode ctx) s) = Z.of_nat (calls s)
    /\ CircuitBreaker.state (circuitAt (ctx_courierCode ctx) s)
       = (if Z.of_nat n <? CircuitBreaker.failureThreshold self
          then CircuitBreaker.CLOSED else CircuitBreaker.OPEN)
    /\ (CircuitBreaker.state (circuitAt (ctx_courierCode ctx) s) = CircuitBreaker.OPEN ->
        exists j, CircuitBreaker.lastFailureTime (circuitAt (ctx_courierCode ctx) s)
                  = clock j).
Proof.
  intros Hthr Hfail Hwindow.
  induction n as [|n IH]; intros s Hs; simpl in Hs.
  - injection Hs as <-. unfold circuitAt, CircuitBreaker.getCircuit. simpl.
    rewrite lookup_empty. simpl.
    split; [lia|]. split; [done|].
    change (Z.of_nat 0) with 0.
    assert (Hlt : (0 <? CircuitBreaker.failureThreshold self) = true)
      by (apply Z.ltb_lt; lia).
    rewrite Hlt. split; [done|]. discriminate.
  - destruct (history self clock terminal ctx n) as [s0|] eqn:Hn; [|done].
    destruct (IH s0 eq_refl) as (Hcalls & Hcount & Hstate & Hlast).
    destruct (breaker_call self clock terminal ctx s0)
      as (o & s' & Hrun & Hwait & _ & Hpass).
    rewrite Hrun in Hs. simpl in Hs. injection Hs as <-.
    set (c := circuitAt (ctx_courierCode ctx) s0) in *.
    destruct (Z.ltb_spec (Z.of_nat n) (CircuitBreaker.failureThreshold self))
      as [Hbelow|Hreached].
    + destruct Hpass as (Hc' & Ho & Hrec); [by rewrite Hstate|].
      destruct (Hfail (calls s0)) as (err & Herr). rewrite Herr in Ho. subst o.
      rewrite Hrec, Hc'. simpl. rewrite Hcount, Hstate.
      split; [lia|]. split; [lia|].
      destruct (Z.leb_spec (CircuitBreaker.failureThreshold self)
                           (Z.of_nat (calls s0) + 1));
        destruct (Z.ltb_spec (Z.of_nat (S n)) (CircuitBreaker.failureThreshold self));
        try lia; (split; [done|]); [eauto|discriminate].
    + destruct (Hlast Hstate) as (j & Hj).
      destruct (Hwait Hstate) as (_ & Hc' & _ & Hrec).
      { rewrite Hj. apply Hwindow. }
      rewrite Hrec, Hc'. split; [lia|]. split; [done|].
      destruct (Z.ltb_spec (Z.of_nat (S n)) (CircuitBreaker.failureThreshold self));
        [lia|]. split; [done|]. intros _. eauto.
Qed.

(** While downstream keeps failing and the reset window has not elapsed, a
    breaker with a threshold of at least 1 lets exactly the first
    [failureThreshold] calls through: after [n] calls downstream has been
    invoked [min n failureThreshold] times, the count equals that number,
    and the circuit is OPEN from the call that reached the threshold on. *)
Theorem breaker_trips_at_threshold (self : CircuitBreaker.t) (clock : nat -> Z)
        (terminal : nat -> outcome) (ctx : MiddlewareContext) (n : nat)
        (s : Run (gmap string CircuitBreaker.CircuitInfo)) :
  1 <= CircuitBreaker.failureThreshold self ->
  (forall i, exists err, terminal i = Rejected err) ->
  (forall i j, clock i - clock j < CircuitBreaker.resetTimeoutMs self) ->
  history self clock terminal ctx n = Some s ->
  Z.of_nat (calls s) = Z.min (Z.of_nat n) (CircuitBreaker.failureThreshold self)
  /\ CircuitBreaker.failures (circuitAt (ctx_courierCode ctx) s) = Z.of_nat (calls s)
  /\ CircuitBreaker.state (circuitAt (ctx_courierCode ctx) s)
     = (if Z.of_nat n <? CircuitBreaker.failureThreshold self
        then CircuitBreaker.CLOSED else CircuitBreaker.OPEN).
Proof.
  intros Hthr Hfail Hwindow Hs.
  destruct (breaker_trip_invariant self clock terminal ctx Hthr Hfail Hwindow n s Hs)
    as (H1 & H2 & H3 & _).
  done.
Qed.

(** The test "opens circuit after threshold failures", four calls. *)
Lemma breaker_trips_at_threshold_witness :
  exists s,
    history {| CircuitBreaker.failureThreshold := 2;
               CircuitBreaker.resetTimeoutMs := 60000 |}
            (fun _ => 1000) (fun _ => Rejected (PlainError "fail")) sampleCtx 4
    = Some s
    /\ Z.of_nat (calls s) = 2
    /\ CircuitBreaker.state (circuitAt "mock" s) = CircuitBreaker.OPEN.
Proof.
  eexists.
  assert (H : history {| CircuitBreaker.failureThreshold := 2;
                         CircuitBreaker.resetTimeoutMs := 60000 |}
                (fun _ => 1000) (fun _ => Rejected (PlainError "fail")) sampleCtx 4
              = Some ?[s]) by (vm_compute; reflexivity).
  split; [exact H|].
  destruct (breaker_trips_at_threshold
              {| CircuitBreaker.failureThreshold := 2;
                 CircuitBreaker.resetTimeoutMs := 60000 |}
              (fun _ => 1000) (fun _ => Rejected (PlainError "fail")) sampleCtx 4 _
              ltac:(simpl; lia) ltac:(intros; eauto) ltac:(intros; simpl; lia) H)
    as (Hc & _ & Hs).
  split; [exact Hc|exact Hs].
Defined.

(** ** MemoryCacheAdapter *)

(** Reading a key after writing it gives the value back as long as the
    clock has not passed [now + ttlMs]; read later, the entry is gone and the
    map is as if the key had been deleted.  Other keys read the same before
    and after the write. *)
Theorem memory_cache_get_after_set (m : gmap string Cache.Entry) (key : string)
        (v : TrackingResult) (ttl t now : Z) :
  Cache.get (Cache.set m key v ttl t) key now
  = (if t + ttl <? now then (None, delete key m)
     else (Some v, Cache.set m key v ttl t))
  /\ forall key', key' <> key ->
       (Cache.get (Cache.set m key v ttl t) key' now).1 = (Cache.get m key' now).1.
Proof.
  split.
  - unfold Cache.get, Cache.set. rewrite lookup_insert_eq. simpl.
    destruct (t + ttl <? now); [|done]. by rewrite delete_insert_eq.
  - intros key' Hne. unfold Cache.get, Cache.set.
    rewrite lookup_insert_ne by done.
    destruct (m !! key') as [e|]; [|done]. by destruct (Cache.expiresAt e <? now).
Qed.

(** The tests "stores and retrieves values" and "returns undefined for
    expired entries". *)
Lemma memory_cache_get_after_set_witness :
  (Cache.get (Cache.set ∅ "key" sampleResult 60000 1000) "key" 1001).1
  = Some sampleResult
  /\ (Cache.get (Cache.set ∅ "key" sampleResult 0 1000) "key" 1001).1 = None
  /\ (Cache.get (Cache.set ∅ "key" sampleResult 0 1000) "other" 1001).1 = None.
Proof.
  split; [|split].
  - rewrite (proj1 (memory_cache_get_after_set ∅ "key" sampleResult 60000 1000 1001)).
    reflexivity.
  - rewrite (proj1 (memory_cache_get_after_set ∅ "key" sampleResult 0 1000 1001)).
    reflexivity.
  - rewrite (proj2 (memory_cache_get_after_set ∅ "key" sampleResult 0 1000 1001)
               "other"); [reflexivity|discriminate].
Defined.

(** ** The tracker's registry *)

Lemma map_get_set_eq {V : Type} key (v : V) m : map_get key (map_set key v m) = Some v.
Proof.
  induction m as [|[k' v'] m IH]; simpl.
  - by rewrite decide_True.
  - destruct (decide (key = k')) as [->|Hne]; simpl.
    + by rewrite decide_True.
    + by rewrite decide_False.
Qed.

Lemma map_get_set_ne {V : Type} key key' (v : V) m :
  key' <> key -> map_get key' (map_set key v m) = map_get key' m.
Proof.
  intros Hne. induction m as [|[k' v'] m IH]; simpl.
  - by rewrite decide_False.
  - destruct (decide (key = k')) as [->|Hk]; simpl.
    + by rewrite !decide_False.
    + destruct (decide (key' = k')); [done|exact IH].
Qed.

Lemma map_set_keys {V : Type} key (v : V) m :
  map fst (map_set key v m)
  = if map_get key m is Some _ then map fst m else map fst m ++ [key].
Proof.
  induction m as [|[k' v'] m IH]; simpl; [done|].
  destruct (decide (key = k')) as [->|Hk]; simpl; [done|].
  rewrite IH. by destruct (map_get key m).
Qed.

Lemma map_get_None_keys {V : Type} key (m : list (string * V)) :
  map_get key m = None -> key ∉ map fst m.
Proof.
  induction m as [|[k' v'] m IH]; simpl; [by intros _ ?%elem_of_nil|].
  destruct (decide (key = k')); [done|]. intros H Hin.
  apply elem_of_cons in Hin as [?|Hin]; [done|]. by apply IH.
Qed.

Lemma map_set_elem {V : Type} key (v : V) m k x :
  (k, x) ∈ map_set key v m -> (k, x) = (key, v) \/ (k, x) ∈ m.
Proof.
  induction m as [|[k' v'] m IH]; simpl.
  - intros H. apply list_elem_of_singleton in H. by left.
  - destruct (decide (key = k')) as [->|Hk]; intros H;
      apply elem_of_cons in H as [H|H].
    + by left.
    + right. by apply elem_of_cons; right.
    + right. by apply elem_of_cons; left.
    + destruct (IH H) as [?|?]; [by left|right]. by apply elem_of_cons; right.
Qed.

Lemma map_get_elem {V : Type} key (v : V) (m : list (string * V)) :
  NoDup (map fst m) -> (key, v) ∈ m -> map_get key m = Some v.
Proof.
  induction m as [|[k' v'] m IH]; simpl; intros Hnd Hin.
  - by apply elem_of_nil in Hin.
  - apply NoDup_cons in Hnd as [Hk' Hnd].
    apply elem_of_cons in Hin as [Hin|Hin].
    + injection Hin as <- <-. by rewrite decide_True.
    + destruct (decide (key = k')) as [->|Hne]; [|by apply IH].
      exfalso. apply Hk'. apply list_elem_of_fmap. by exists (k', v).
Qed.

Lemma map_set_wellKeyed (p : Provider) m :
  wellKeyed m -> wellKeyed (map_set (p_code p) p m).
Proof.
  intros [Hnd Hkeys]. split.
  - rewrite map_set_keys.
    destruct (map_get (p_code p) m) eqn:E; [done|].
    apply NoDup_app. split; [done|]. split; [|apply NoDup_singleton].
    intros k Hk Hk'. apply list_elem_of_singleton in Hk'. subst k.
    by apply map_get_None_keys in E.
  - intros k x Hin. apply map_set_elem in Hin as [[= -> ->]|Hin]; [done|].
    by apply Hkeys.
Qed.

(** [use] puts the provider under its code, replacing the one that was
    there and leaving the other codes and the middlewares alone: the last
    registration for a code wins, and the registry keeps one provider per
    code. *)
Theorem use_last_registration_wins {W : Type} (p : Provider) (t : ShipmentTracker W) :
  map_get (p_code p) (providers (use p t)) = Some p
  /\ (forall code, code <> p_code p ->
        map_get code (providers (use p t)) = map_get code (providers t))
  /\ (wellKeyed (providers t) -> wellKeyed (providers (use p t)))
  /\ length (providers (use p t))
     = (if map_get (p_code p) (providers t) is Some _
        then length (providers t) else S (length (providers t)))
  /\ middlewares (use p t) = middlewares t.
Proof.
  unfold use. simpl.
  split; [apply map_get_set_eq|].
  split; [intros code Hne; by apply map_get_set_ne|].
  split; [apply map_set_wellKeyed|].
  split; [|done].
  rewrite <- (length_map fst), map_set_keys.
  destruct (map_get (p_code p) (providers t)).
  - by rewrite length_map.
  - rewrite length_app, length_map. simpl. lia.
Qed.

(** An instance of [use_last_registration_wins]: a second provider under
    the code "mock" replaces the first. *)
Lemma use_last_registration_wins_witness :
  map_get "mock"
    (providers (use {| p_name := "Second"; p_code := "mock"; p_couriers := [];
                       p_track := fun _ _ => Rejected (PlainError "x") |}
                    (newTracker [mockProvider] ([] : list (Middleware ())))))
  = Some {| p_name := "Second"; p_code := "mock"; p_couriers := [];
            p_track := fun _ _ => Rejected (PlainError "x") |}
  /\ wellKeyed
       (providers (use {| p_name := "Second"; p_code := "mock"; p_couriers := [];
                          p_track := fun _ _ => Rejected (PlainError "x") |}
                       (newTracker [mockProvider] ([] : list (Middleware ()))))).
Proof.
  destruct (use_last_registration_wins
              {| p_name := "Second"; p_code := "mock"; p_couriers := [];
                 p_track := fun _ _ => Rejected (PlainError "x") |}
              (newTracker [mockProvider] ([] : list (Middleware ()))))
    as (Hget & _ & Hkeys & _).
  split; [exact Hget|]. apply Hkeys.
  split; simpl.
  - apply NoDup_singleton.
  - intros k p Hin. apply list_elem_of_singleton in Hin. by injection Hin as -> ->.
Defined.

Lemma newTracker_wellKeyed {W : Type} ps (ms : list (Middleware W)) :
  wellKeyed (providers (newTracker ps ms)).
Proof.
  unfold newTracker.
  assert (Hms : forall (l : list (Middleware W)) t,
            providers (foldl (fun t m => useMiddleware m t) t l) = providers t).
  { induction l as [|m l IH]; intros t; simpl; [done|]. by rewrite IH. }
  rewrite Hms.
  assert (Hps : forall (l : list Provider) (t : ShipmentTracker W),
            wellKeyed (providers t) ->
            wellKeyed (providers (foldl (fun t p => use p t) t l))).
  { induction l as [|p l IH]; intros t Ht; simpl; [done|].
    apply IH. simpl. by apply map_set_wellKeyed. }
  apply Hps. split; simpl; [constructor|]. intros k p Hin. by apply elem_of_nil in Hin.
Qed.

(** ** The tracker: detection and signals *)

(** When the number is recognised as courier code [d] and some registered
    provider lists [d] among its couriers (the S10 code of the postal union
    under USPS, say), detection answers with the code of the first such
    provider, which is registered under that code; when no provider lists
    [d], it answers [d] itself. *)
Theorem detected_code_is_routed_to_its_provider {W : Type}
        (getTracking : string -> list string -> option string)
        (self : ShipmentTracker W) (trackingNumber d : string) :
  wellKeyed (providers self) ->
  getTracking trackingNumber (flat_map (fun kv => p_couriers kv.2) (providers self))
    = Some d ->
  ((exists k p, (k, p) ∈ providers self /\ d ∈ p_couriers p) ->
   exists p, detectCourier getTracking self trackingNumber = Fulfilled (p_code p)
             /\ d ∈ p_couriers p
             /\ map_get (p_code p) (providers self) = Some p)
  /\ ((forall k p, (k, p) ∈ providers self -> d ∉ p_couriers p) ->
      detectCourier getTracking self trackingNumber = Fulfilled d).
Proof.
  intros [Hnd Hkeys] Hdetect. unfold detectCourier. rewrite Hdetect.
  destruct (List.find (fun kv => bool_decide (d ∈ p_couriers kv.2)) (providers self))
    as [[k p]|] eqn:Hfind.
  - apply find_some in Hfind as [Hin Hd]. apply list_elem_of_In in Hin.
    apply bool_decide_eq_true in Hd. simpl in Hd.
    split.
    + intros _. exists p. split; [done|]. split; [done|].
      rewrite <- (Hkeys k p Hin). by apply map_get_elem.
    + intros Hnone. by destruct (Hnone k p Hin).
  - split; [|done].
    intros (k & p & Hin & Hd). apply list_elem_of_In in Hin.
    pose proof (find_none _ _ Hfind (k, p) Hin) as Hf.
    apply bool_decide_eq_false in Hf. by destruct Hf.
Qed.

(** An instance of [detected_code_is_routed_to_its_provider]: a USPS
    provider that lists the codes usps and s10. *)
Lemma detected_code_is_routed_to_its_provider_witness :
  detectCourier (fun _ _ => Some "s10")
    (newTracker [ {| p_name := "USPS"; p_code := "usps"; p_couriers := ["usps"; "s10"];
                     p_track := fun _ _ => Rejected (PlainError "x") |} ]
                ([] : list (Middleware ())))
    "EA123456789US"
  = Fulfilled "usps".
Proof.
  destruct (detected_code_is_routed_to_its_provider (fun _ _ => Some "s10")
              (newTracker [ {| p_name := "USPS"; p_code := "usps";
                               p_couriers := ["usps"; "s10"];
                               p_track := fun _ _ => Rejected (PlainError "x") |} ]
                          ([] : list (Middleware ())))
              "EA123456789US" "s10")
    as [Hroute _]; [apply newTracker_wellKeyed|reflexivity|].
  destruct Hroute as (p & Hdet & _ & _).
  - eexists _, _. split; [apply list_elem_of_singleton; reflexivity|].
    simpl. apply elem_of_cons; right. apply list_elem_of_singleton. reflexivity.
  - reflexivity.
Defined.

Section TraceGrows.
Context {W : Type}.
Variable clock : nat -> Z.
Variable terminal : nat -> outcome.

Lemma runMw_appends (h : Run W -> option (outcome * Run W)) (p : Prog W) :
  appends h -> appends (runMw clock h p).
Proof.
  intros Hh. induction p as [o|k IH|k IH|ms k IH|k IH|w k IH|msg k IH];
    intros s o' s' Hrun; simpl in Hrun.
  - injection Hrun as <- <-. exists []. by rewrite app_nil_r.
  - destruct (h s) as [[o1 s1]|] eqn:E; [|done].
    destruct (Hh _ _ _ E) as [m1 H1]. destruct (IH _ _ _ _ Hrun) as [m2 H2].
    exists (m1 ++ m2). by rewrite H2, H1, app_assoc.
  - destruct (IH _ _ _ _ Hrun) as [m H]. by exists m.
  - destruct (IH _ _ _ Hrun) as [m H]. simpl in H.
    exists (EvSleep ms :: m). by rewrite H, <- app_assoc.
  - destruct (IH _ _ _ _ Hrun) as [m H]. by exists m.
  - destruct (IH _ _ _ Hrun) as [m H]. by exists m.
  - destruct (IH _ _ _ Hrun) as [m H]. simpl in H.
    exists (EvEmit msg :: m). by rewrite H, <- app_assoc.
Qed.

Lemma next_appends (middlewares : list (Middleware W)) ctx fuel :
  appends (next clock terminal middlewares ctx fuel).
Proof.
  induction fuel as [|fuel IH]; intros s o s' H; cbn [next] in H.
  - destruct (length middlewares <=? index s)%nat; [|done].
    injection H as <- <-. by exists [EvTerminal].
  - destruct (length middlewares <=? index s)%nat.
    { injection H as <- <-. by exists [EvTerminal]. }
    destruct (middlewares !! index s) as [mw|]; [|done].
    by apply (runMw_appends _ _ IH) in H.
Qed.

Lemma chain_appends (middlewares : list (Middleware W)) ctx :
  appends (executeMiddlewareChain clock terminal middlewares ctx).
Proof.
  intros s o s' H. unfold executeMiddlewareChain in H.
  destruct (length middlewares =? 0)%nat.
  - injection H as <- <-. by exists [EvTerminal].
  - by apply next_appends in H.
Qed.
End TraceGrows.

(** [track] either rejects before anything is dispatched, with a plain
    Error and without a signal or any other effect, or it dispatches to the
    provider registered under the resolved code: it emits track:start, runs
    the chain, settles exactly as the chain did, and emits track:success or
    track:error last, according to the outcome. *)
Theorem track_signals_frame_the_chain {W : Type} (clock : nat -> Z)
        (getTracking : string -> list string -> option string)
        (self : ShipmentTracker W) (trackingNumber : string)
        (opts : option TrackOptions) (s s' : Run W) (o : outcome) :
  track clock getTracking self trackingNumber opts s = Some (o, s') ->
  (s' = s /\ exists message, o = Rejected (PlainError message))
  \/ (exists code provider s1 more,
        map_get code (providers self) = Some provider
        /\ executeMiddlewareChain clock (p_track provider trackingNumber)
             (middlewares self)
             {| ctx_trackingNumber := trackingNumber; ctx_courierCode := code |}
             (record (EvEmit "track:start") s) = Some (o, s1)
        /\ s' = record (EvEmit (match o with
                                | Fulfilled _ => "track:success"
                                | Rejected _ => "track:error"
                                end)) s1
        /\ trace s' = trace s ++ [EvEmit "track:start"] ++ more
                       ++ [EvEmit (match o with
                                   | Fulfilled _ => "track:success"
                                   | Rejected _ => "track:error"
                                   end)]).
Proof.
  unfold track. intros H.
  destruct (match opts ≫= courierCode with
            | Some code => Fulfilled code
            | None => detectCourier getTracking self trackingNumber
            end) as [code|err] eqn:Hres.
  - destruct (map_get code (providers self)) as [provider|] eqn:Hp.
    + right.
      destruct (executeMiddlewareChain clock (p_track provider trackingNumber)
                  (middlewares self) _ (record (EvEmit "track:start") s))
        as [[o1 s1]|] eqn:Hchain; [|done].
      destruct (chain_appends _ _ _ _ _ _ _ Hchain) as [more Hmore].
      simpl in Hmore.
      exists code, provider, s1, more.
      destruct o1 as [v|e]; injection H as <- <-;
        (split; [done|]); (split; [done|]); (split; [done|]);
        simpl; rewrite Hmore; by rewrite <- !app_assoc.
    + left. injection H as <- <-. eauto.
  - left. injection H as <- <-. split; [done|].
    destruct (opts ≫= courierCode); [done|].
    unfold detectCourier in Hres.
    destruct (getTracking _ _); [|injection Hres as <-; eauto].
    by destruct (List.find _ _).
Qed.

(** The tests "emits track:start and track:success events" and "throws for
    unregistered courier code". *)
Lemma track_signals_frame_the_chain_witness :
  exists s',
    track (fun _ => 0) (fun _ _ => None)
      (newTracker [mockProvider] ([] : list (Middleware ()))) "123"
      (Some {| courierCode := Some "mock" |}) (start ())
    = Some (mockProvider.(p_track) "123" 0%nat, s')
    /\ trace s' = [EvEmit "track:start"; EvTerminal; EvEmit "track:success"].
Proof.
  eexists. split; [vm_compute; reflexivity|].
  destruct (track_signals_frame_the_chain (fun _ => 0) (fun _ _ => None)
              (newTracker [mockProvider] ([] : list (Middleware ()))) "123"
              (Some {| courierCode := Some "mock" |}) (start ()) _ _
              ltac:(vm_compute; reflexivity))
    as [[Hs _]|(code & provider & s1 & more & _ & _ & _ & Htrace)].
  - discriminate.
  - reflexivity.
Defined.

(** ** BaseProvider: the token cache *)

(** A refresh on an instance without a token stores the token with
    [expiresAt = now + expires_in * 1000 - 60000]; the next [getToken]
    returns it without a request while the clock is below that instant, and
    starts a new refresh from that instant on.  A token that expires in 60
    seconds or less is therefore never served from the cache. *)
Theorem token_is_cached_until_safety_buffer (clock : nat -> Z)
        (tokenEndpoint : nat -> Settled BaseProvider.OAuthTokenResponse)
        (w : BaseProvider.World) (data : BaseProvider.OAuthTokenResponse) :
  BaseProvider.tokenCache (BaseProvider.instance w) = None ->
  BaseProvider.tokenPromise (BaseProvider.instance w) = None ->
  tokenEndpoint (BaseProvider.tokenRequests (BaseProvider.instance w))
    = Fulfilled data ->
  exists w1,
    BaseProvider.getToken clock tokenEndpoint w
    = Some (Fulfilled (BaseProvider.access_token data), w1)
    /\ BaseProvider.tokenRequests (BaseProvider.instance w1)
       = S (BaseProvider.tokenRequests (BaseProvider.instance w))
    /\ BaseProvider.tokenPromise (BaseProvider.instance w1) = None
    /\ (clock (BaseProvider.nowReads w1)
        < clock (BaseProvider.nowReads w) + BaseProvider.expires_in data * 1000 - 60000 ->
        exists w2,
          BaseProvider.getToken clock tokenEndpoint w1
          = Some (Fulfilled (BaseProvider.access_token data), w2)
          /\ BaseProvider.instance w2 = BaseProvider.instance w1)
    /\ (clock (BaseProvider.nowReads w) + BaseProvider.expires_in data * 1000 - 60000
        <= clock (BaseProvider.nowReads w1) ->
        forall data2,
          tokenEndpoint (S (BaseProvider.tokenRequests (BaseProvider.instance w)))
            = Fulfilled data2 ->
          exists w2,
            BaseProvider.getToken clock tokenEndpoint w1
            = Some (Fulfilled (BaseProvider.access_token data2), w2)
            /\ BaseProvider.tokenRequests (BaseProvider.instance w2)
               = S (S (BaseProvider.tokenRequests (BaseProvider.instance w)))).
Proof.
  intros Hcache Hidle Hreply.
  destruct w as [[cache promise settled requests] reads calls0].
  simpl in *. subst cache promise.
  eexists. split.
  { unfold BaseProvider.getToken, BaseProvider.getToken_enter,
      BaseProvider.cachedToken, BaseProvider.readClock. simpl.
    rewrite Hreply. simpl. rewrite lookup_insert_eq. reflexivity. }
  simpl. split; [done|]. split; [done|].
  split.
  - intros Hvalid. apply Z.ltb_lt in Hvalid.
    unfold BaseProvider.getToken, BaseProvider.getToken_enter,
      BaseProvider.cachedToken, BaseProvider.readClock,
      BaseProvider.TOKEN_BUFFER_MS. simpl.
    rewrite Hvalid. eexists. split; reflexivity.
  - intros Hexpired data2 Hreply2. apply Z.ltb_ge in Hexpired.
    unfold BaseProvider.getToken, BaseProvider.getToken_enter,
      BaseProvider.cachedToken, BaseProvider.readClock,
      BaseProvider.TOKEN_BUFFER_MS. simpl.
    rewrite Hexpired, Hreply2. simpl. rewrite lookup_insert_eq.
    eexists. split; reflexivity.
Qed.

(** The test "caches token across calls": one token request for two
    calls. *)
Lemma token_is_cached_until_safety_buffer_witness :
  exists w1 w2,
    BaseProvider.getToken (fun _ => 1000)
      (fun _ => Fulfilled {| BaseProvider.access_token := "test-token";
                             BaseProvider.expires_in := 3600 |})
      {| BaseProvider.instance := BaseProvider.initial;
         BaseProvider.nowReads := 0%nat; BaseProvider.dataCalls := [] |}
    = Some (Fulfilled "test-token", w1)
    /\ BaseProvider.getToken (fun _ => 1000)
         (fun _ => Fulfilled {| BaseProvider.access_token := "test-token";
                                BaseProvider.expires_in := 3600 |}) w1
       = Some (Fulfilled "test-token", w2)
    /\ BaseProvider.tokenRequests (BaseProvider.instance w2) = 1%nat.
Proof.
  destruct (token_is_cached_until_safety_buffer (fun _ => 1000)
              (fun _ => Fulfilled {| BaseProvider.access_token := "test-token";
                                     BaseProvider.expires_in := 3600 |})
              {| BaseProvider.instance := BaseProvider.initial;
                 BaseProvider.nowReads := 0%nat; BaseProvider.dataCalls := [] |}
              {| BaseProvider.access_token := "test-token";
                 BaseProvider.expires_in := 3600 |})
    as (w1 & Hfirst & Hreq & _ & Hhit & _); [reflexivity|reflexivity|reflexivity|].
  destruct Hhit as (w2 & Hsecond & Hsame); [simpl; lia|].
  exists w1, w2. split; [exact Hfirst|]. split; [exact Hsecond|].
  rewrite Hsame. exact Hreq.
Defined.

(** ** BaseProvider: what [fetchWithAuthRetry] and [track] let through *)

(** A data call that succeeds, or that fails with anything but a 401, is
    made once: its outcome is the outcome of [fetchWithAuthRetry], the token
    cache is kept and no token is requested. *)
Theorem fetch_without_401_is_one_call (clock : nat -> Z)
        (tokenEndpoint : nat -> Settled BaseProvider.OAuthTokenResponse)
        (dataEndpoint : nat -> string -> Settled string)
        (tok : string) (w : BaseProvider.World) :
  (forall err,
     dataEndpoint (length (BaseProvider.dataCalls w)) tok = Rejected err ->
     response_status err <> Some 401) ->
  exists w',
    BaseProvider.fetchWithAuthRetry clock tokenEndpoint dataEndpoint tok w
    = Some (dataEndpoint (length (BaseProvider.dataCalls w)) tok, w')
    /\ BaseProvider.instance w' = BaseProvider.instance w
    /\ BaseProvider.dataCalls w' = BaseProvider.dataCalls w ++ [tok].
Proof.
  intros Hno. unfold BaseProvider.fetchWithAuthRetry, BaseProvider.fetchTrackingData.
  destruct (dataEndpoint (length (BaseProvider.dataCalls w)) tok) as [data|err] eqn:E.
  - eexists. split; [reflexivity|done].
  - rewrite decide_False by (by apply Hno).
    eexists. split; [reflexivity|done].
Qed.

Lemma fetch_without_401_is_one_call_witness :
  exists w',
    BaseProvider.fetchWithAuthRetry (fun _ => 0)
      (fun _ => Rejected (PlainError "unused"))
      (fun _ _ => Rejected (httpError 500)) "tok"
      {| BaseProvider.instance := BaseProvider.initial;
         BaseProvider.nowReads := 0%nat; BaseProvider.dataCalls := [] |}
    = Some (Rejected (httpError 500), w')
    /\ BaseProvider.dataCalls w' = ["tok"].
Proof.
  destruct (fetch_without_401_is_one_call (fun _ => 0)
              (fun _ => Rejected (PlainError "unused"))
              (fun _ _ => Rejected (httpError 500)) "tok"
              {| BaseProvider.instance := BaseProvider.initial;
                 BaseProvider.nowReads := 0%nat; BaseProvider.dataCalls := [] |})
    as (w' & Hrun & _ & Hcalls).
  - intros err [= <-]. vm_compute. discriminate.
  - exists w'. split; [exact Hrun|exact Hcalls].
Defined.

(** When the refresh that follows a 401 fails, the data call is not
    repeated: the failure of the token endpoint is thrown, the cached token
    is gone and the refresh handle is cleared. *)
Theorem reauth_stops_when_refresh_fails (clock : nat -> Z)
        (tokenEndpoint : nat -> Settled BaseProvider.OAuthTokenResponse)
        (dataEndpoint : nat -> string -> Settled string)
        (tok : string) (w : BaseProvider.World) (err1 err2 : Thrown) :
  dataEndpoint (length (BaseProvider.dataCalls w)) tok = Rejected err1 ->
  response_status err1 = Some 401 ->
  BaseProvider.tokenPromise (BaseProvider.instance w) = None ->
  tokenEndpoint (BaseProvider.tokenRequests (BaseProvider.instance w))
    = Rejected err2 ->
  exists w',
    BaseProvider.fetchWithAuthRetry clock tokenEndpoint dataEndpoint tok w
    = Some (Rejected err2, w')
    /\ BaseProvider.dataCalls w' = BaseProvider.dataCalls w ++ [tok]
    /\ BaseProvider.tokenCache (BaseProvider.instance w') = None
    /\ BaseProvider.tokenPromise (BaseProvider.instance w') = None
    /\ BaseProvider.tokenRequests (BaseProvider.instance w')
       = S (BaseProvider.tokenRequests (BaseProvider.instance w)).
Proof.
  intros Hfirst H401 Hidle Hreply.
  destruct w as [[cache promise settled requests] reads calls0].
  simpl in *. subst promise.
  unfold BaseProvider.fetchWithAuthRetry, BaseProvider.fetchTrackingData. simpl.
  rewrite Hfirst, decide_True by done.
  unfold BaseProvider.getToken, BaseProvider.getToken_enter,
    BaseProvider.cachedToken. simpl.
  rewrite Hreply. simpl. rewrite lookup_insert_eq.
  eexists. split; [reflexivity|]. done.
Qed.

Lemma reauth_stops_when_refresh_fails_witness :
  exists w',
    BaseProvider.fetchWithAuthRetry (fun _ => 0)
      (fun _ => Rejected (httpError 503))
      (fun _ _ => Rejected (httpError 401)) "tok"
      {| BaseProvider.instance := BaseProvider.initial;
         BaseProvider.nowReads := 0%nat; BaseProvider.dataCalls := [] |}
    = Some (Rejected (httpError 503), w')
    /\ BaseProvider.dataCalls w' = ["tok"].
Proof.
  destruct (reauth_stops_when_refresh_fails (fun _ => 0)
              (fun _ => Rejected (httpError 503))
              (fun _ _ => Rejected (httpError 401)) "tok"
              {| BaseProvider.instance := BaseProvider.initial;
                 BaseProvider.nowReads := 0%nat; BaseProvider.dataCalls := [] |}
              (httpError 401) (httpError 503))
    as (w' & Hrun & Hcalls & _);
    [reflexivity|reflexivity|reflexivity|reflexivity|].
  exists w'. split; [exact Hrun|exact Hcalls].
Defined.

Lemma wrap_is_provider_error name tn err :
  instanceof_ProviderError (BaseProvider.wrap name tn err) = true.
Proof.
  unfold BaseProvider.wrap.
  destruct (instanceof_ProviderError err || instanceof_AuthenticationError err) eqn:E.
  - destruct err; simpl in *; done.
  - by destruct (response_data err).
Qed.

(** With credentials in place, everything [track] throws is a
    ProviderError and never an AxiosError, so RetryMiddleware classifies no
    failure of a provider as retryable; a result it returns carries the
    provider's code, the tracking number asked for and the raw payload that
    passed [checkForError] and was parsed. *)
Theorem track_throws_only_provider_errors (name code : string) (clock : nat -> Z)
        (tokenEndpoint : nat -> Settled BaseProvider.OAuthTokenResponse)
        (dataEndpoint : nat -> string -> Settled string)
        (checkForError : string -> option Thrown)
        (parseResponse : string -> Settled (list TrackingEvent * option Z))
        (tn : string) (w w' : BaseProvider.World) (o : outcome) :
  BaseProvider.track name code clock tokenEndpoint dataEndpoint None
    checkForError parseResponse tn w = Some (o, w') ->
  match o with
  | Rejected err =>
      instanceof_ProviderError err = true
      /\ instanceof_AxiosError err = false
      /\ Retry.isRetryable err = false
  | Fulfilled result =>
      courier result = code
      /\ trackingNumber result = tn
      /\ checkForError (raw result) = None
      /\ parseResponse (raw result)
         = Fulfilled (events result, estimatedDeliveryTime result)
  end.
Proof.
  unfold BaseProvider.track. intros H.
  destruct (BaseProvider.attempt code clock tokenEndpoint dataEndpoint
              checkForError parseResponse tn w) as [[[result|err] w1]|] eqn:Hatt;
    [| |done]; injection H as <- <-.
  - unfold BaseProvider.attempt in Hatt.
    destruct (BaseProvider.getToken clock tokenEndpoint w) as [[[tok|e] w2]|];
      [| |done]; [|done].
    destruct (BaseProvider.fetchWithAuthRetry clock tokenEndpoint dataEndpoint tok w2)
      as [[[data|e] w3]|]; [| |done]; [|done].
    destruct (checkForError data) eqn:Hcheck; [done|].
    destruct (parseResponse data) as [[evs eta]|e] eqn:Hparse; [|done].
    injection Hatt as <- <-. simpl. done.
  - pose proof (wrap_is_provider_error name tn err) as Hp.
    split; [done|].
    destruct (BaseProvider.wrap name tn err); simpl in *; done.
Qed.

(** An instance of [track_throws_only_provider_errors]: a data endpoint
    that answers 500. *)
Lemma track_throws_only_provider_errors_witness :
  exists err w',
    BaseProvider.track "UPS" "ups" (fun _ => 1000)
      (fun _ => Fulfilled {| BaseProvider.access_token := "tok";
                             BaseProvider.expires_in := 3600 |})
      (fun _ _ => Rejected (httpError 500))
      None (fun _ => None) (fun _ => Fulfilled ([], None)) "1Z999"
      {| BaseProvider.instance := BaseProvider.initial;
         BaseProvider.nowReads := 0%nat; BaseProvider.dataCalls := [] |}
    = Some (Rejected err, w')
    /\ Retry.isRetryable err = false.
Proof.
  eexists _, _. split; [vm_compute; reflexivity|].
  refine (proj2 (proj2 (track_throws_only_provider_errors "UPS" "ups" (fun _ => 1000)
            (fun _ => Fulfilled {| BaseProvider.access_token := "tok";
                                   BaseProvider.expires_in := 3600 |})
            (fun _ _ => Rejected (httpError 500))
            (fun _ => None) (fun _ => Fulfilled ([], None)) "1Z999"
            {| BaseProvider.instance := BaseProvider.initial;
               BaseProvider.nowReads := 0%nat; BaseProvider.dataCalls := [] |}
            _ (Rejected _) _))).
  vm_compute. reflexivity.
Defined.
